(** * Storage-class memory manager (scm.c): a shallow embedding

    The program maps a backing file at a fixed virtual address, keeps a
    three-word header at the front of the mapping and bump-allocates
    from the bytes after it.  The development follows the source
    function by function:

    - the structs [metadata] and [scm] are records of [size_t] words,
      kept as [Z] with the wrap-around of [size_t] written out ([wrap]);
    - the header codec ([calculate_checksum], [initialize_metadata],
      [load_metadata], [store_metadata]) and the allocator guard
      ([scm_malloc]) are pure functions that pass the structs
      explicitly;
    - [file_size], [init_zero], [scm_open], [scm_strdup] and
      [scm_close] run in a small state monad over the process state
      (the malloc'ed handle, the descriptor table, the fixed mapping
      and the backing file), whose result can also be [Undefined]
      when the C program leaves defined behaviour (use after free,
      double free, a store through NULL or outside the mapping). *)

From Stdlib Require Import ZArith List String Ascii Bool Lia.
Import ListNotations.
Open Scope Z_scope.

(** ** Constants *)

Definition META_SIZE : Z := 24.
Definition SCM_SIGNATURE : Z := 0xDEEDBEED.
Definition VM_ADDR : Z := 0x600000000003.

(** [size_t] is 64 bits wide on the LP64 targets where [VM_ADDR] fits. *)
Definition SIZE_BITS : Z := 64.
Definition wrap (x : Z) : Z := x mod 2 ^ SIZE_BITS.

(** [MAP_FAILED] is [(void * ) -1]. *)
Definition MAP_FAILED : Z := 2 ^ SIZE_BITS - 1.

(** ** The two structs *)

Record metadata : Type := mkMeta {
  size : Z;       (* Size of the data stored *)
  signature : Z;  (* Unique identifier for SCM format *)
  checksum : Z    (* Checksum for data integrity verification *)
}.

Record scm : Type := mkScm {
  fd : Z;         (* File descriptor for the opened file *)
  mem : Z;        (* Pointer to mapped memory region *)
  utilized : Z;   (* Amount of utilized space in the mapped region *)
  capacity : Z    (* Total size of the mapped memory *)
}.

Definition set_size (m : metadata) (v : Z) : metadata :=
  mkMeta v (signature m) (checksum m).
Definition set_signature (m : metadata) (v : Z) : metadata :=
  mkMeta (size m) v (checksum m).
Definition set_checksum (m : metadata) (v : Z) : metadata :=
  mkMeta (size m) (signature m) v.

Definition set_fd (s : scm) (v : Z) : scm :=
  mkScm v (mem s) (utilized s) (capacity s).
Definition set_mem (s : scm) (v : Z) : scm :=
  mkScm (fd s) v (utilized s) (capacity s).
Definition set_utilized (s : scm) (v : Z) : scm :=
  mkScm (fd s) (mem s) v (capacity s).
Definition set_capacity (s : scm) (v : Z) : scm :=
  mkScm (fd s) (mem s) (utilized s) v.

(** ** Metadata codec: the struct-passing bodies *)

(** [calculate_checksum]: [meta->size ^ meta->signature]. *)
Definition calculate_checksum (meta : metadata) : Z :=
  Z.lxor (size meta) (signature meta).

(** [initialize_metadata]: the three header stores in source order,
    then [scm->utilized = 0]. *)
Definition initialize_metadata (s : scm) (meta : metadata) : scm * metadata :=
  let meta := set_size meta 0 in
  let meta := set_signature meta SCM_SIGNATURE in
  let meta := set_checksum meta (calculate_checksum meta) in
  (set_utilized s 0, meta).

(** [load_metadata]: the returned status is [0] or [-1]; the handle is
    only written on the success path. *)
Definition load_metadata (s : scm) (meta : metadata) : Z * scm :=
  if negb (signature meta =? SCM_SIGNATURE) then (-1, s)
  else if negb (checksum meta =? calculate_checksum meta) then (-1, s)
  else (0, set_utilized s (size meta)).

(** [store_metadata]: writes [size], then recomputes [checksum] from
    the record as it now stands; [signature] is not assigned. *)
Definition store_metadata (s : scm) (meta : metadata) : metadata :=
  let meta := set_size meta (utilized s) in
  set_checksum meta (calculate_checksum meta).

(** ** Linear allocator *)

(** A pointer value of 64 bits as the caller sees it: [None] for NULL
    (the value 0), [Some] of the address otherwise.  Arithmetic on
    [char * ] is arithmetic modulo 2^64. *)
Definition pointer (a : Z) : option Z :=
  if wrap a =? 0 then None else Some (wrap a).

(** [scm_malloc].  The guard and the increment are [size_t] arithmetic,
    hence the [wrap].  The pointer handed out is
    [(char * ) scm->mem + scm->utilized], a 64-bit sum as well: when it
    wraps to 0 the caller receives NULL although the cursor has moved.
    The second [None] is the explicit [return NULL]. *)
Definition scm_malloc (s : scm) (n : Z) : option Z * scm :=
  if wrap (utilized s + n) <=? capacity s then
    let p := pointer (mem s + utilized s) in
    (p, set_utilized s (wrap (utilized s + n)))
  else (None, s).

(** [scm_capacity], [scm_utilized], [scm_mbase]. *)
Definition scm_capacity (s : scm) : Z := capacity s.
Definition scm_utilized (s : scm) : Z := utilized s.
Definition scm_mbase (s : scm) : Z := mem s.

(** ** The process around a store *)

(** The backing file.  Its first [META_SIZE] bytes are the header
    record, kept as a [metadata]: header loads and stores go through
    [f_meta] and through nothing else.  [f_data] gives the bytes of
    the file by offset and is the content of the file from offset
    [META_SIZE] on; below [META_SIZE] it only follows the zero-fill
    of [init_zero] and says nothing about the header words stored
    later.  The mapping is [MAP_SHARED], so the mapped bytes are the
    file's bytes: loads and stores through the mapping act on this
    record. *)
Record file : Type := mkFile {
  f_regular : bool;     (* S_ISREG(st.st_mode) *)
  f_size : Z;           (* st.st_size *)
  f_meta : metadata;
  f_data : Z -> ascii
}.

(** What one process holds: the malloc'ed [struct scm] ([None] when
    there is no live allocation), the open descriptors, the fixed
    mapping as (address, length), and the backing file. *)
Record proc : Type := mkProc {
  cell : option scm;
  fds : list Z;
  mapping : option (Z * Z);
  disk : file
}.

Definition set_cell (p : proc) (c : option scm) : proc :=
  mkProc c (fds p) (mapping p) (disk p).
Definition set_fds (p : proc) (l : list Z) : proc :=
  mkProc (cell p) l (mapping p) (disk p).
Definition set_mapping (p : proc) (m : option (Z * Z)) : proc :=
  mkProc (cell p) (fds p) m (disk p).
Definition set_disk (p : proc) (d : file) : proc :=
  mkProc (cell p) (fds p) (mapping p) d.

(** What the system answers to the calls of scm.c.  [page_size()] is
    declared outside scm.c and is taken as a parameter. *)
Record env : Type := mkEnv {
  page : Z;               (* page_size() *)
  brk : Z;                (* sbrk(0) *)
  malloc_ok : bool;       (* malloc returns non-NULL *)
  heap_junk : scm;        (* content of fresh malloc'ed memory *)
  open_rdwr : Z;          (* open(pathname, O_RDWR) *)
  fstat_size_ok : bool;   (* fstat in file_size *)
  fstat_trunc_ok : bool;  (* fstat in the truncate branch *)
  open_wronly : Z;        (* open(filename, O_WRONLY) in init_zero *)
  write_fail : option nat;(* index of the write() that returns -1 *)
  mmap_ok : bool;         (* the kernel grants the fixed placement *)
  munmap_ok : bool
}.

(** ** A state monad with undefined behaviour *)

Inductive result (A : Type) : Type :=
| Done (a : A) (p : proc)   (* the call returned [a] *)
| Undefined                 (* the C program has no defined behaviour *)
| OutOfFuel.                  (* a loop of the model ran out of fuel *)
Arguments Done {A} a p.
Arguments Undefined {A}.
Arguments OutOfFuel {A}.

Definition M (A : Type) : Type := proc -> result A.

Definition ret {A : Type} (a : A) : M A := fun p => Done a p.

Definition bind {A B : Type} (c : M A) (k : A -> M B) : M B :=
  fun p =>
    match c p with
    | Done a p' => k a p'
    | Undefined => Undefined
    | OutOfFuel => OutOfFuel
    end.

Notation "x <- c1 ;; c2" := (bind c1 (fun x => c2))
  (at level 61, c1 at next level, right associativity).
Notation "c1 ;; c2" := (bind c1 (fun _ => c2))
  (at level 61, right associativity).

Definition undefined {A : Type} : M A := fun _ => Undefined.

(** *** Access to the handle through its pointer *)

(** Reading a field of [*scm]: undefined once the struct is freed. *)
Definition get_cell : M scm :=
  fun p => match cell p with
           | Some s => Done s p
           | None => Undefined
           end.

(** Assigning a field of [*scm]. *)
Definition put_cell (f : scm -> scm) : M unit :=
  fun p => match cell p with
           | Some s => Done tt (set_cell p (Some (f s)))
           | None => Undefined
           end.

(** *** System and library calls *)

Definition sys_malloc (e : env) : M bool :=
  fun p => if malloc_ok e
           then Done true (set_cell p (Some (heap_junk e)))
           else Done false p.

(** [memset(scm, 0, sizeof(struct scm))]. *)
Definition memset_zero : M unit := put_cell (fun _ => mkScm 0 0 0 0).

(** [free]: releasing a pointer that is not live is a double free. *)
Definition sys_free : M unit :=
  fun p => match cell p with
           | Some _ => Done tt (set_cell p None)
           | None => Undefined
           end.

(** Modelled from the spec: [FREE] is a macro of the absent scm.h; the
    spec counts the handle among the resources that are released on a
    failed open, so [FREE(scm)] releases the allocation like [free]. *)
Definition FREE : M unit := sys_free.

(** [open]: a non-negative result is a new descriptor. *)
Definition sys_open (r : Z) : M Z :=
  fun p => if 0 <=? r then Done r (set_fds p (r :: fds p)) else Done (-1) p.

Definition is_open (d : Z) (p : proc) : bool :=
  existsb (Z.eqb d) (fds p).

(** [close]: [-1] (EBADF) on a descriptor that is not open. *)
Definition sys_close (d : Z) : M Z :=
  fun p => if is_open d p
           then Done 0 (set_fds p (filter (fun x => negb (x =? d)) (fds p)))
           else Done (-1) p.

(** [fstat]: [None] is the [-1] return, otherwise [S_ISREG] and
    [st_size] of the backing file. *)
Definition sys_fstat (ok : bool) (d : Z) : M (option (bool * Z)) :=
  fun p => if ok && is_open d p
           then Done (Some (f_regular (disk p), f_size (disk p))) p
           else Done None p.

(** [mmap] with [MAP_FIXED | MAP_SHARED]: fails on a zero length
    (EINVAL, as POSIX requires) and on a bad descriptor; on success the
    mapping lands at the requested address. *)
Definition sys_mmap (e : env) (addr len d : Z) : M Z :=
  fun p => if negb (len =? 0) && is_open d p && mmap_ok e
           then Done addr (set_mapping p (Some (addr, len)))
           else Done MAP_FAILED p.

(** [munmap]: [0] and the mapping is gone, or [-1]. *)
Definition sys_munmap (e : env) (addr len : Z) : M Z :=
  fun p => match mapping p with
           | Some (a, _) =>
               if (a =? addr) && munmap_ok e
               then Done 0 (set_mapping p None)
               else Done (-1) p
           | None => Done (-1) p
           end.

(** The header through [(struct metadata * ) scm->mem]: defined when
    [scm->mem] is the start of a mapping that holds a whole header. *)
Definition header_at (addr : Z) (p : proc) : bool :=
  match mapping p with
  | Some (a, len) => (a =? addr) && (META_SIZE <=? len)
  | None => false
  end.

Definition read_meta (addr : Z) : M metadata :=
  fun p => if header_at addr p then Done (f_meta (disk p)) p else Undefined.

Definition set_f_meta (d : file) (m : metadata) : file :=
  mkFile (f_regular d) (f_size d) m (f_data d).

(** A store to the header words replaces [f_meta]; [f_data] is not
    written by it and is not kept in step below [META_SIZE]. *)
Definition write_meta (addr : Z) (m : metadata) : M unit :=
  fun p => if header_at addr p
           then Done tt (set_disk p (set_f_meta (disk p) m))
           else Undefined.

(** One byte of the usable part of the mapping. *)
Definition data_at (addr : Z) (p : proc) : bool :=
  match mapping p with
  | Some (a, len) => (a + META_SIZE <=? addr) && (addr <? a + len)
  | None => false
  end.

Definition map_base (p : proc) : Z :=
  match mapping p with
  | Some (a, _) => a
  | None => 0
  end.

Definition set_f_byte (d : file) (off : Z) (b : ascii) : file :=
  mkFile (f_regular d) (f_size d) (f_meta d)
         (fun o => if o =? off then b else f_data d o).

Definition store_byte (addr : Z) (b : ascii) : M unit :=
  fun p => if data_at addr p
           then Done tt (set_disk p (set_f_byte (disk p) (addr - map_base p) b))
           else Undefined.

Definition load_byte (addr : Z) (p : proc) : option ascii :=
  if data_at addr p then Some (f_data (disk p) (addr - map_base p)) else None.

(** [msync]: the mapped bytes already are the file's bytes here, so
    only the status is modelled. *)
Definition sys_msync (addr len : Z) : M Z :=
  fun p => match mapping p with
           | Some (a, _) => Done (if a =? addr then 0 else -1) p
           | None => Done (-1) p
           end.

(** [write] of [len] zero bytes at file offset [off]: the bytes of
    that range become zero, the header too when the range covers it,
    and the file grows when the range ends past its size. *)
Definition zero_range (d : file) (off len : Z) : file :=
  mkFile (f_regular d)
         (Z.max (f_size d) (off + len))
         (if (off <=? 0) && (META_SIZE <=? off + len)
          then mkMeta 0 0 0 else f_meta d)
         (fun o => if (off <=? o) && (o <? off + len)
                   then zero else f_data d o).

Definition write_fails (e : env) (k : nat) : bool :=
  match write_fail e with
  | Some j => Nat.eqb j k
  | None => false
  end.

(** The [k]-th [write(fd, buffer, len)] of a call of [init_zero]:
    [-1], or the whole buffer is written. *)
Definition sys_write (e : env) (k : nat) (d off len : Z) : M Z :=
  fun p => if is_open d p && negb (write_fails e k)
           then Done len (set_disk p (zero_range (disk p) off len))
           else Done (-1) p.

(** [TRACE] only reports to the diagnostic channel and is left out of
    the state. *)

(** ** The functions of scm.c that act on the process *)

(** The codec applied to the header that [scm->mem] points to. *)
Definition run_initialize_metadata : M unit :=
  s <- get_cell ;;
  meta <- read_meta (mem s) ;;
  write_meta (mem s) (snd (initialize_metadata s meta)) ;;
  put_cell (fun s => fst (initialize_metadata s meta)).

Definition run_load_metadata : M Z :=
  s <- get_cell ;;
  meta <- read_meta (mem s) ;;
  put_cell (fun s => snd (load_metadata s meta)) ;;
  ret (fst (load_metadata s meta)).

Definition run_store_metadata : M unit :=
  s <- get_cell ;;
  meta <- read_meta (mem s) ;;
  write_meta (mem s) (store_metadata s meta).

Definition run_scm_malloc (n : Z) : M (option Z) :=
  s <- get_cell ;;
  put_cell (fun s => snd (scm_malloc s n)) ;;
  ret (fst (scm_malloc s n)).

(** [file_size].  Both failure branches release the handle and return
    [-1]; the last line returns [-1] for a non-zero capacity. *)
Definition file_size (e : env) : M Z :=
  s <- get_cell ;;
  st <- sys_fstat (fstat_size_ok e) (fd s) ;;
  match st with
  | None =>
      sys_close (fd s) ;;
      sys_free ;;
      ret (-1)
  | Some (reg, st_size) =>
      if reg : bool then
        put_cell (fun s => set_capacity s st_size) ;;
        let pg := page e in
        put_cell (fun s => set_capacity s ((capacity s / pg) * pg)) ;;
        s <- get_cell ;;
        ret (if capacity s =? 0 then 0 else -1)
      else
        FREE ;;
        ret (-1)
  end.

(** The [while] loop of [init_zero]; [k] counts the writes made. *)
Fixpoint zero_loop (e : env) (fuel k : nat) (fdw bytes_written nbytes : Z)
  : M Z :=
  match fuel with
  | O => fun _ => OutOfFuel
  | S fuel' =>
      if bytes_written <? nbytes then
        r <- sys_write e k fdw bytes_written 4096 ;;
        if r =? -1 then
          sys_close fdw ;;
          ret (-1)
        else zero_loop e fuel' (S k) fdw (wrap (bytes_written + r)) nbytes
      else
        sys_close fdw ;;
        ret 0
  end.

(** [init_zero(filename, size)]. *)
Definition init_zero (e : env) (nbytes : Z) : M Z :=
  fdw <- sys_open (open_wronly e) ;;
  if fdw =? -1 then ret (-1)
  else zero_loop e (Z.to_nat (nbytes / 4096) + 2) 0 fdw 0 nbytes.

(** The condition [fstat(scm->fd, &st) == -1 || init_zero(...) != 0]
    of the truncate branch. *)
Definition truncate_fails (e : env) : M bool :=
  s <- get_cell ;;
  st <- sys_fstat (fstat_trunc_ok e) (fd s) ;;
  match st with
  | None => ret true
  | Some (_, st_size) =>
      z <- init_zero e st_size ;;
      ret (negb (z =? 0))
  end.

(** [scm_open].  The status of [file_size] and of [load_metadata] is
    dropped, as in the source.  With a positive page size the two
    round-downs stay below their operand, so no wrap-around occurs. *)
Definition scm_open (e : env) (truncate : bool) : M (option scm) :=
  ok <- sys_malloc e ;;
  if negb ok then ret None
  else
    memset_zero ;;
    r <- sys_open (open_rdwr e) ;;
    put_cell (fun s => set_fd s r) ;;
    s <- get_cell ;;
    if fd s <? 0 then
      FREE ;;
      ret None
    else
      file_size e ;;
      let curr := brk e in
      let vm_addr := (VM_ADDR / page e) * page e in
      if vm_addr <? curr then
        FREE ;;
        ret None
      else
        failed <- (if truncate then truncate_fails e else ret false) ;;
        if failed : bool then
          s <- get_cell ;;
          sys_close (fd s) ;;
          sys_free ;;
          ret None
        else
          s <- get_cell ;;
          r <- sys_mmap e vm_addr (capacity s) (fd s) ;;
          put_cell (fun s => set_mem s r) ;;
          s <- get_cell ;;
          if mem s =? MAP_FAILED then
            FREE ;;
            ret None
          else
            (if truncate then run_initialize_metadata
             else (run_load_metadata ;; ret tt)) ;;
            put_cell (fun s => set_mem s (mem s + META_SIZE)) ;;
            s <- get_cell ;;
            ret (Some s).

(** [strlen] of a C string given by its characters before the NUL. *)
Definition strlen (s : string) : Z := Z.of_nat (String.length s).

Fixpoint store_bytes (addr : Z) (bs : list ascii) : M unit :=
  match bs with
  | [] => ret tt
  | b :: bs' =>
      store_byte addr b ;;
      store_bytes (addr + 1) bs'
  end.

(** [strcpy(dest, s)]: the characters of [s] and the terminating NUL,
    byte by byte; a NULL destination is undefined. *)
Definition strcpy (dest : option Z) (s : string) : M unit :=
  match dest with
  | None => undefined
  | Some addr => store_bytes addr (list_ascii_of_string s ++ [zero])
  end.

(** [scm_strdup]: the result of [scm_malloc] goes to [strcpy]
    unchecked. *)
Definition scm_strdup (s : string) : M (option Z) :=
  let length := wrap (strlen s + 1) in
  new_string <- run_scm_malloc length ;;
  strcpy new_string s ;;
  ret new_string.

(** [scm_close]. *)
Definition scm_close (e : env) : M unit :=
  put_cell (fun s => set_mem s (mem s - META_SIZE)) ;;
  run_store_metadata ;;
  s <- get_cell ;;
  (if negb (mem s =? 0) && negb (mem s =? MAP_FAILED) then
     sys_msync (mem s) (capacity s) ;;
     sys_munmap e (mem s) (capacity s) ;;
     ret tt
   else ret tt) ;;
  s <- get_cell ;;
  (if negb (fd s =? 0) then
     sys_close (fd s) ;;
     ret tt
   else ret tt) ;;
  sys_free.

(** ** Specification predicates *)

(** The validity check of the header: expected signature and matching
    checksum. *)
Definition header_ok (meta : metadata) : Prop :=
  signature meta = SCM_SIGNATURE /\
  checksum meta = Z.lxor (size meta) (signature meta).

(** The bound on the allocation cursor. *)
Definition within_capacity (s : scm) : Prop :=
  0 <= utilized s <= capacity s.

(** The page-aligned fixed address that [scm_open] computes. *)
Definition vm_addr_of (e : env) : Z := VM_ADDR / page e * page e.

(** [untouched p q]: the handle and the mapping are the same in [q] as
    in [p]; the system calls on descriptors and file bytes leave them
    alone. *)
Definition untouched (p q : proc) : Prop :=
  cell q = cell p /\ mapping q = mapping p.

(** [fuel_suffices c]: whatever the state, [c] returns or is
    undefined; the fuel of no loop runs out. *)
Definition fuel_suffices {A : Type} (c : M A) : Prop :=
  forall p, c p <> OutOfFuel.

(** The calls a client makes between open and close. *)
Inductive call : Type :=
| Malloc (n : Z)
| Strdup (s : string).

Definition do_call (c : call) : M unit :=
  match c with
  | Malloc n => run_scm_malloc n ;; ret tt
  | Strdup s => scm_strdup s ;; ret tt
  end.

Fixpoint do_calls (cs : list call) : M unit :=
  match cs with
  | [] => ret tt
  | c :: cs' =>
      do_call c ;;
      do_calls cs'
  end.

(** ** Concrete stores used in the examples *)

(** 4096-byte pages, a break far below [VM_ADDR], every call granted;
    [open] hands out descriptor 3 (and 4 inside [init_zero]). *)
Definition env0 : env :=
  mkEnv 4096 0x10000000 true (mkScm 7 7 7 7) 3 true true 4 None true true.

(** The same system with the break above the fixed address. *)
Definition env_high_brk : env :=
  mkEnv 4096 0x700000000000 true (mkScm 7 7 7 7) 3 true true 4 None true true.

Definition blank : Z -> ascii := fun _ => zero.

(** A process with stdin, stdout and stderr open and no store yet. *)
Definition proc_of (d : file) : proc := mkProc None [0; 1; 2] None d.

(** The page-aligned fixed address for 4096-byte pages. *)
Definition vm_base : Z := 0x600000000000.

(** An 8192-byte regular file whose header holds unrelated data. *)
Definition foreign_meta : metadata := mkMeta 1 2 3.
Definition foreign_file : file := mkFile true 8192 foreign_meta blank.

(** A 4096-byte regular file with a header that passes the validity
    check and records 2^20 allocated bytes. *)
Definition oversized_meta : metadata :=
  mkMeta (2 ^ 20) SCM_SIGNATURE (Z.lxor (2 ^ 20) SCM_SIGNATURE).
Definition oversized_file : file := mkFile true 4096 oversized_meta blank.

(** An 8192-byte store as a close leaves it after 6 bytes were handed
    out. *)
Definition stored_meta : metadata :=
  mkMeta 6 SCM_SIGNATURE (Z.lxor 6 SCM_SIGNATURE).
Definition stored_file : file := mkFile true 8192 stored_meta blank.

(** An 8192-byte store whose valid header records 2^64 - mem bytes, so
    that the cursor address of the reopened handle is 2^64. *)
Definition wrapped_handle : scm :=
  mkScm 3 (vm_base + META_SIZE) (2 ^ 64 - (vm_base + META_SIZE)) 8192.
Definition wrapping_file : file :=
  mkFile true 8192
         (mkMeta (2 ^ 64 - (vm_base + META_SIZE)) SCM_SIGNATURE
                 (Z.lxor (2 ^ 64 - (vm_base + META_SIZE)) SCM_SIGNATURE))
         blank.

(** A character device such as /dev/null: opens read-write, is not a
    regular file. *)
Definition device_file : file := mkFile false 0 (mkMeta 0 0 0) blank.

(** A regular file shorter than one page. *)
Definition short_file : file := mkFile true 100 (mkMeta 0 0 0) blank.

(** A handle as [scm_open] returns it on an 8192-byte store. *)
Definition handle_at (u : Z) : scm := mkScm 3 (vm_base + META_SIZE) u 8192.

(** An open store of 8192 bytes with [u] bytes handed out. *)
Definition open_store (u : Z) : proc :=
  mkProc (Some (handle_at u)) [3; 0; 1; 2] (Some (vm_base, 8192))
         (mkFile true 8192 (mkMeta 0 SCM_SIGNATURE SCM_SIGNATURE) blank).

(** ** A client that allocates in a row *)

(** [scm_malloc] called once per request of [ns], in order, on the
    same handle: the returned pointers and the handle at the end. *)
Fixpoint scm_malloc_all (s : scm) (ns : list Z) : list (option Z) * scm :=
  match ns with
  | [] => ([], s)
  | n :: ns' =>
      let (p, s1) := scm_malloc s n in
      let (ps, s2) := scm_malloc_all s1 ns' in
      (p :: ps, s2)
  end.

(** Back-to-back blocks: the first starts at [base], each next one
    where the previous one ends. *)
Fixpoint back_to_back (base : Z) (ns : list Z) : list Z :=
  match ns with
  | [] => []
  | n :: ns' => base :: back_to_back (base + n) ns'
  end.

Definition total (ns : list Z) : Z := fold_right Z.add 0 ns.

(** Where the zero-fill of [init_zero] stops: the size rounded up to
    whole 4096-byte buffers. *)
Definition zero_fill_end (nbytes : Z) : Z := 4096 * ((nbytes + 4095) / 4096).

(** Where the loop of [init_zero] stops when it is at [bw]: whole
    buffers are written until [nbytes] is covered. *)
Definition fill_end (bw nbytes : Z) : Z :=
  bw + 4096 * Z.max 0 ((nbytes - bw + 4095) / 4096).

(** ** Systems that refuse one call *)

Definition env_no_heap : env :=
  mkEnv 4096 0x10000000 false (mkScm 7 7 7 7) 3 true true 4 None true true.
Definition env_no_path : env :=
  mkEnv 4096 0x10000000 true (mkScm 7 7 7 7) (-1) true true 4 None true true.
Definition env_no_fstat : env :=
  mkEnv 4096 0x10000000 true (mkScm 7 7 7 7) 3 false true 4 None true true.
Definition env_no_wronly : env :=
  mkEnv 4096 0x10000000 true (mkScm 7 7 7 7) 3 true true (-1) None true true.
Definition env_no_mmap : env :=
  mkEnv 4096 0x10000000 true (mkScm 7 7 7 7) 3 true true 4 None false true.
(** The second [write] of [init_zero] fails. *)
Definition env_bad_write : env :=
  mkEnv 4096 0x10000000 true (mkScm 7 7 7 7) 3 true true 4 (Some 1%nat)
        true true.

(** A process that holds a handle on descriptor 3 and no mapping yet,
    as [scm_open] has it when it calls [file_size]. *)
Definition opening (d : file) : proc :=
  mkProc (Some (mkScm 3 0 0 0)) [3; 0; 1; 2] None d.

(** * Properties *)

(** ** Word arithmetic *)

Lemma wrap_range (x : Z) : 0 <= wrap x < 2 ^ SIZE_BITS.
Proof. unfold wrap. apply Z.mod_pos_bound. reflexivity. Qed.

Lemma wrap_small (x : Z) : 0 <= x < 2 ^ SIZE_BITS -> wrap x = x.
Proof. intros H. unfold wrap. now apply Z.mod_small. Qed.

Lemma wrap_minus_modulus (x : Z) : wrap (x + (2 ^ SIZE_BITS - x)) = 0.
Proof.
  replace (x + (2 ^ SIZE_BITS - x)) with (2 ^ SIZE_BITS) by lia.
  reflexivity.
Qed.

(** ** Metadata codec *)

Lemma load_metadata_ok (s : scm) (meta : metadata) :
  header_ok meta -> load_metadata s meta = (0, set_utilized s (size meta)).
Proof.
  intros [Hsig Hsum]. unfold load_metadata, calculate_checksum.
  rewrite Hsig in *. rewrite Z.eqb_refl. cbn [negb].
  rewrite Hsum, Z.eqb_refl. reflexivity.
Qed.

Lemma load_metadata_bad (s : scm) (meta : metadata) :
  ~ header_ok meta -> load_metadata s meta = (-1, s).
Proof.
  intros Hbad. unfold load_metadata, calculate_checksum.
  destruct (signature meta =? SCM_SIGNATURE) eqn:Hsig; cbn [negb]; auto.
  destruct (checksum meta =? Z.lxor (size meta) (signature meta)) eqn:Hsum;
    cbn [negb]; auto.
  exfalso. apply Hbad. split; now apply Z.eqb_eq.
Qed.

Lemma header_ok_dec (meta : metadata) : header_ok meta \/ ~ header_ok meta.
Proof.
  unfold header_ok.
  destruct (Z.eq_dec (signature meta) SCM_SIGNATURE);
    destruct (Z.eq_dec (checksum meta) (Z.lxor (size meta) (signature meta)));
    tauto.
Qed.

(** C7: for every header record, [load_metadata] returns the success
    status exactly when the stored signature is the expected constant
    and the stored checksum is size XOR signature; on success the
    handle's [utilized] is the stored size (and on failure the handle
    is untouched). *)
Theorem load_metadata_succeeds_iff_valid (s : scm) (meta : metadata) :
  (fst (load_metadata s meta) = 0 <->
   signature meta = SCM_SIGNATURE /\
   checksum meta = Z.lxor (size meta) (signature meta)) /\
  (fst (load_metadata s meta) = 0 ->
   utilized (snd (load_metadata s meta)) = size meta) /\
  (fst (load_metadata s meta) <> 0 -> snd (load_metadata s meta) = s).
Proof.
  destruct (header_ok_dec meta) as [Hok | Hbad].
  - rewrite (load_metadata_ok s meta Hok). cbn [fst snd].
    repeat split; try apply Hok; try reflexivity. intros H; now elim H.
  - rewrite (load_metadata_bad s meta Hbad). cbn [fst snd].
    repeat split; try discriminate; try reflexivity.
    intros H. now elim Hbad.
Qed.

Lemma store_metadata_fields (s : scm) (meta : metadata) :
  store_metadata s meta =
  mkMeta (utilized s) (signature meta) (Z.lxor (utilized s) (signature meta)).
Proof. reflexivity. Qed.

Lemma initialize_metadata_valid (s : scm) (meta : metadata) :
  header_ok (snd (initialize_metadata s meta)).
Proof. split; reflexivity. Qed.

(** C6, as amended: for every handle whose header record carries the
    expected signature and every U <= capacity, storing U and loading
    the record back succeeds and yields [utilized = U]. *)
Theorem store_load_roundtrip (h h' : scm) (meta : metadata) (U : Z) :
  signature meta = SCM_SIGNATURE ->
  0 <= U <= capacity h ->
  load_metadata h' (store_metadata (set_utilized h U) meta) =
  (0, set_utilized h' U).
Proof.
  intros Hsig _. rewrite store_metadata_fields.
  now rewrite load_metadata_ok by (split; cbn; congruence).
Qed.

(** The round trip on a freshly initialised header, with U = 6. *)
Lemma store_load_roundtrip_witness :
  signature (mkMeta 0 SCM_SIGNATURE SCM_SIGNATURE) = SCM_SIGNATURE /\
  0 <= 6 <= capacity (handle_at 0) /\
  load_metadata (handle_at 0)
    (store_metadata (set_utilized (handle_at 0) 6)
                    (mkMeta 0 SCM_SIGNATURE SCM_SIGNATURE)) =
  (0, set_utilized (handle_at 0) 6).
Proof.
  split; [reflexivity |]. split; [cbn; lia |].
  apply (store_load_roundtrip (handle_at 0) (handle_at 0)
           (mkMeta 0 SCM_SIGNATURE SCM_SIGNATURE) 6).
  - reflexivity.
  - cbn. lia.
Defined.

(** C6, as stated, fails on a header with a foreign signature: the
    store leaves the signature alone, so the load that follows is
    refused and the handle keeps its zero. *)
Lemma store_load_foreign_signature :
  0 <= 6 <= capacity (handle_at 0) /\
  load_metadata (handle_at 0)
    (store_metadata (set_utilized (handle_at 0) 6) foreign_meta) =
  (-1, handle_at 0) /\
  utilized (handle_at 0) <> 6.
Proof. cbn. repeat split; try lia; discriminate. Qed.

(** ** Allocator *)

Lemma pointer_in_range (a : Z) :
  0 < a < 2 ^ SIZE_BITS -> pointer a = Some a.
Proof.
  intros H. unfold pointer. rewrite wrap_small by lia.
  destruct (a =? 0) eqn:H0; [lia | reflexivity].
Qed.

Lemma pointer_Some (a b : Z) :
  pointer a = Some b -> b = wrap a /\ 0 < b < 2 ^ SIZE_BITS.
Proof.
  unfold pointer. pose proof (wrap_range a) as Hr.
  destruct (wrap a =? 0) eqn:H0; [discriminate |].
  intros H. inversion H. split; [reflexivity | lia].
Qed.

Lemma scm_malloc_fits (s : scm) (n : Z) :
  0 <= utilized s -> 0 <= n ->
  utilized s + n <= capacity s -> capacity s < 2 ^ SIZE_BITS ->
  scm_malloc s n =
  (pointer (mem s + utilized s), set_utilized s (utilized s + n)).
Proof.
  intros Hu Hn Hfit Hcap. unfold scm_malloc.
  rewrite wrap_small by lia.
  destruct (utilized s + n <=? capacity s) eqn:Hle; [reflexivity | lia].
Qed.

Lemma scm_malloc_refused (s : scm) (n : Z) :
  capacity s < wrap (utilized s + n) -> scm_malloc s n = (None, s).
Proof.
  intros H. unfold scm_malloc.
  destruct (wrap (utilized s + n) <=? capacity s) eqn:Hle; [lia | reflexivity].
Qed.

Lemma scm_malloc_frame (s : scm) (n : Z) :
  fd (snd (scm_malloc s n)) = fd s /\
  mem (snd (scm_malloc s n)) = mem s /\
  capacity (snd (scm_malloc s n)) = capacity s.
Proof.
  unfold scm_malloc.
  destruct (wrap (utilized s + n) <=? capacity s); cbn; auto.
Qed.

Lemma scm_malloc_within_capacity (s : scm) (n : Z) :
  within_capacity s -> within_capacity (snd (scm_malloc s n)).
Proof.
  unfold within_capacity, scm_malloc. intros H.
  destruct (wrap (utilized s + n) <=? capacity s) eqn:Hle; cbn; [| exact H].
  pose proof (wrap_range (utilized s + n)). lia.
Qed.

(** C5 at the failing input: 16 of 8192 bytes are in use and a request
    of 2^64 - 16 bytes, far more than what is left, is granted: the
    guard's sum wraps to 0, the pointer [mem + 16] is returned and
    [utilized] falls back to 0. *)
Theorem scm_malloc_grants_oversized_request :
  capacity (handle_at 16) < utilized (handle_at 16) + (2 ^ 64 - 16) /\
  scm_malloc (handle_at 16) (2 ^ 64 - 16) =
  (Some (vm_base + META_SIZE + 16), handle_at 0).
Proof. split; [cbn; lia | reflexivity]. Qed.

(** C9, as amended: for every handle with [utilized > 0] (fields
    within [size_t]) whose cursor address [mem + utilized] is not 0
    modulo 2^64, some request larger than [capacity - utilized] is
    granted, because the guard's sum is taken modulo 2^64: the request
    of 2^64 - utilized bytes returns the cursor address and sets
    [utilized] back to 0. *)
Theorem scm_malloc_guard_wraps (s : scm) :
  0 < utilized s < 2 ^ SIZE_BITS ->
  0 <= capacity s < 2 ^ SIZE_BITS ->
  wrap (mem s + utilized s) <> 0 ->
  exists n : Z,
    0 <= n < 2 ^ SIZE_BITS /\
    capacity s - utilized s < n /\
    scm_malloc s n = (Some (wrap (mem s + utilized s)), set_utilized s 0).
Proof.
  intros Hu Hc Hp. exists (2 ^ SIZE_BITS - utilized s).
  repeat split; try lia.
  unfold scm_malloc, pointer. rewrite wrap_minus_modulus.
  destruct (0 <=? capacity s) eqn:Hle; [| lia].
  destruct (wrap (mem s + utilized s) =? 0) eqn:H0; [lia | reflexivity].
Qed.

(** The wrapping request on a handle with 16 of 8192 bytes in use. *)
Lemma scm_malloc_guard_wraps_witness :
  0 < utilized (handle_at 16) < 2 ^ SIZE_BITS /\
  0 <= capacity (handle_at 16) < 2 ^ SIZE_BITS /\
  wrap (mem (handle_at 16) + utilized (handle_at 16)) <> 0 /\
  exists n : Z,
    0 <= n < 2 ^ SIZE_BITS /\
    capacity (handle_at 16) - utilized (handle_at 16) < n /\
    scm_malloc (handle_at 16) n =
    (Some (wrap (mem (handle_at 16) + utilized (handle_at 16))),
     set_utilized (handle_at 16) 0).
Proof.
  split; [cbn; lia |]. split; [cbn; lia |]. split; [discriminate |].
  apply (scm_malloc_guard_wraps (handle_at 16));
    [cbn; lia | cbn; lia | discriminate].
Defined.

(** C9, as stated, fails on a handle whose cursor address wraps to 0.
    The 8192-byte file carries a header that passes the check and
    records 2^64 - mem bytes; the reopen returns a handle with that
    [utilized], which is positive, and on this handle no request at
    all is answered with a pointer: either the guard refuses it, or
    the pointer [mem + utilized] is 0 in 64 bits. *)
Lemma scm_malloc_null_at_wrapped_cursor :
  (exists q,
      scm_open env0 false (proc_of wrapping_file) =
      Done (Some wrapped_handle) q) /\
  0 < utilized wrapped_handle < 2 ^ SIZE_BITS /\
  0 <= capacity wrapped_handle < 2 ^ SIZE_BITS /\
  ~ (exists n : Z,
        0 <= n < 2 ^ SIZE_BITS /\
        capacity wrapped_handle - utilized wrapped_handle < n /\
        fst (scm_malloc wrapped_handle n) <> None).
Proof.
  split; [eexists; vm_compute; reflexivity |].
  split; [split; reflexivity |].
  split; [split; [discriminate | reflexivity] |].
  intros (n & _ & _ & H). apply H.
  assert (Hp : pointer (mem wrapped_handle + utilized wrapped_handle) = None)
    by reflexivity.
  unfold scm_malloc. rewrite Hp.
  now destruct (wrap (utilized wrapped_handle + n) <=? capacity wrapped_handle).
Qed.

(** ** Reasoning in the monad *)

Lemma bind_Done {A B : Type} (c : M A) (k : A -> M B) (p q : proc) (b : B) :
  bind c k p = Done b q ->
  exists a p1, c p = Done a p1 /\ k a p1 = Done b q.
Proof.
  unfold bind. destruct (c p) as [a p1 | |]; try discriminate.
  intros H. now exists a, p1.
Qed.

Lemma bind_step {A B : Type} (c : M A) (k : A -> M B) (p p1 : proc) (a : A) :
  c p = Done a p1 -> bind c k p = k a p1.
Proof. unfold bind. now intros ->. Qed.

Lemma ret_Done {A : Type} (a b : A) (p q : proc) :
  ret a p = Done b q -> b = a /\ q = p.
Proof. unfold ret. intros H. now inversion H. Qed.

Lemma get_cell_Done (p q : proc) (s : scm) :
  get_cell p = Done s q -> q = p /\ cell p = Some s.
Proof.
  unfold get_cell. destruct (cell p); try discriminate.
  intros H. now inversion H.
Qed.

Lemma put_cell_Done (f : scm -> scm) (p q : proc) (u : unit) :
  put_cell f p = Done u q ->
  exists s, cell p = Some s /\ q = set_cell p (Some (f s)).
Proof.
  unfold put_cell. destruct (cell p) as [s |]; try discriminate.
  intros H. inversion H. now exists s.
Qed.

Lemma sys_free_Done (p q : proc) (u : unit) :
  sys_free p = Done u q -> q = set_cell p None.
Proof.
  unfold sys_free. destruct (cell p); try discriminate.
  intros H. now inversion H.
Qed.

(** Peels one [bind] off a hypothesis [bind c k p = Done b q]. *)
Ltac peel H a p1 Hc :=
  apply bind_Done in H; destruct H as (a & p1 & Hc & H).

Lemma untouched_refl (p : proc) : untouched p p.
Proof. now split. Qed.

Lemma untouched_trans (p q r : proc) :
  untouched p q -> untouched q r -> untouched p r.
Proof. unfold untouched. intros [-> ->] [-> ->]. now split. Qed.

Lemma sys_open_untouched (r : Z) (p q : proc) (a : Z) :
  sys_open r p = Done a q -> untouched p q.
Proof.
  unfold sys_open. destruct (0 <=? r); intros H; inversion H; now split.
Qed.

Lemma sys_close_untouched (d : Z) (p q : proc) (a : Z) :
  sys_close d p = Done a q -> untouched p q.
Proof.
  unfold sys_close. destruct (is_open d p); intros H; inversion H; now split.
Qed.

Lemma sys_fstat_Done (ok : bool) (d : Z) (p q : proc) (st : option (bool * Z)) :
  sys_fstat ok d p = Done st q ->
  q = p /\
  (st = None \/ st = Some (f_regular (disk p), f_size (disk p))).
Proof.
  unfold sys_fstat. destruct (ok && is_open d p); intros H; inversion H; auto.
Qed.

Lemma sys_write_untouched (e : env) (k : nat) (d off len : Z) (p q : proc)
      (a : Z) :
  sys_write e k d off len p = Done a q -> untouched p q.
Proof.
  unfold sys_write. destruct (is_open d p && negb (write_fails e k));
    intros H; inversion H; now split.
Qed.

Lemma zero_loop_untouched (e : env) (fuel : nat) :
  forall (k : nat) (fdw bw nbytes : Z) (p q : proc) (a : Z),
    zero_loop e fuel k fdw bw nbytes p = Done a q -> untouched p q.
Proof.
  induction fuel as [| fuel IH]; intros k fdw bw nbytes p q a H.
  - discriminate.
  - cbn [zero_loop] in H. destruct (bw <? nbytes).
    + peel H r p1 Hw. apply sys_write_untouched in Hw.
      destruct (r =? -1).
      * peel H c p2 Hc. apply sys_close_untouched in Hc.
        apply ret_Done in H as [_ ->].
        eauto using untouched_trans.
      * apply IH in H. eauto using untouched_trans.
    + peel H c p2 Hc. apply sys_close_untouched in Hc.
      apply ret_Done in H as [_ ->]. exact Hc.
Qed.

Lemma init_zero_untouched (e : env) (nbytes : Z) (p q : proc) (a : Z) :
  init_zero e nbytes p = Done a q -> untouched p q.
Proof.
  unfold init_zero. intros H. peel H fdw p1 Ho.
  apply sys_open_untouched in Ho. destruct (fdw =? -1).
  - apply ret_Done in H as [_ ->]. exact Ho.
  - apply zero_loop_untouched in H. eauto using untouched_trans.
Qed.

Lemma truncate_fails_untouched (e : env) (p q : proc) (b : bool) :
  truncate_fails e p = Done b q -> untouched p q.
Proof.
  unfold truncate_fails. intros H. peel H s p1 Hg.
  apply get_cell_Done in Hg as [-> _].
  peel H st p2 Hs. apply sys_fstat_Done in Hs as [-> _].
  destruct st as [[reg sz] |].
  - peel H z p3 Hz. apply init_zero_untouched in Hz.
    apply ret_Done in H as [_ ->]. exact Hz.
  - apply ret_Done in H as [_ ->]. apply untouched_refl.
Qed.

(** ** [file_size] *)

(** When [file_size] returns, either it has released the handle (both
    [-1] branches), or the file is regular and the capacity is the file
    size rounded down to whole pages. *)
Lemma file_size_Done (e : env) (p q : proc) (s : scm) (r : Z) :
  cell p = Some s ->
  file_size e p = Done r q ->
  mapping q = mapping p /\ disk q = disk p /\
  (cell q = None \/
   (f_regular (disk p) = true /\
    cell q = Some (set_capacity s (f_size (disk p) / page e * page e)))).
Proof.
  intros Hcell H. unfold file_size in H.
  peel H s0 p1 Hg. apply get_cell_Done in Hg as [-> Hs0].
  rewrite Hcell in Hs0. inversion Hs0; subst s0; clear Hs0.
  peel H st p1 Hst. apply sys_fstat_Done in Hst as [-> Hst].
  destruct Hst as [-> | ->].
  - peel H c p1 Hc. peel H u p2 Hf.
    assert (Hd : disk p1 = disk p).
    { revert Hc. unfold sys_close. destruct (is_open (fd s) p);
        intros Hc; now inversion Hc. }
    apply sys_close_untouched in Hc as [Hc1 Hc2].
    apply sys_free_Done in Hf. apply ret_Done in H as [_ ->]. subst p2.
    cbn. rewrite Hc2, Hd. auto.
  - destruct (f_regular (disk p)) eqn:Hreg.
    + peel H u p1 H1. apply put_cell_Done in H1 as (s1 & Hs1 & ->).
      peel H u2 p2 H2. apply put_cell_Done in H2 as (s2 & Hs2 & ->).
      peel H s3 p3 H3. apply get_cell_Done in H3 as [-> Hs3].
      apply ret_Done in H as [_ ->].
      cbn in Hs2. rewrite Hcell in Hs1.
      inversion Hs1; subst s1. inversion Hs2; subst s2.
      cbn. repeat split; auto.
    + peel H u p1 Hf. apply sys_free_Done in Hf. subst p1.
      apply ret_Done in H as [_ ->]. cbn. auto.
Qed.

(** ** The header through the mapping *)

Lemma sys_malloc_Done (e : env) (p q : proc) (b : bool) :
  sys_malloc e p = Done b q ->
  (b = true /\ q = set_cell p (Some (heap_junk e))) \/ (b = false /\ q = p).
Proof.
  unfold sys_malloc. destruct (malloc_ok e); intros H; inversion H; auto.
Qed.

Lemma sys_mmap_Done (e : env) (addr len d : Z) (p q : proc) (r : Z) :
  sys_mmap e addr len d p = Done r q ->
  (r = addr /\ q = set_mapping p (Some (addr, len)) /\ len <> 0) \/
  (r = MAP_FAILED /\ q = p).
Proof.
  unfold sys_mmap. destruct (len =? 0) eqn:Hlen; cbn [negb andb].
  - intros H; inversion H; auto.
  - apply Z.eqb_neq in Hlen.
    destruct (is_open d p && mmap_ok e); intros H; inversion H; auto.
Qed.

Lemma read_meta_Done (addr : Z) (p q : proc) (m : metadata) :
  read_meta addr p = Done m q ->
  q = p /\ m = f_meta (disk p) /\ header_at addr p = true.
Proof.
  unfold read_meta. destruct (header_at addr p); try discriminate.
  intros H. now inversion H.
Qed.

Lemma write_meta_Done (addr : Z) (m : metadata) (p q : proc) (u : unit) :
  write_meta addr m p = Done u q ->
  q = set_disk p (set_f_meta (disk p) m) /\ header_at addr p = true.
Proof.
  unfold write_meta. destruct (header_at addr p); try discriminate.
  intros H. now inversion H.
Qed.

Lemma run_initialize_metadata_Done (p q : proc) (u : unit) :
  run_initialize_metadata p = Done u q ->
  exists s, cell p = Some s /\
            cell q = Some (set_utilized s 0) /\
            mapping q = mapping p /\
            header_ok (f_meta (disk q)).
Proof.
  unfold run_initialize_metadata. intros H.
  peel H s p1 Hg. apply get_cell_Done in Hg as [-> Hs].
  peel H m p1 Hr. apply read_meta_Done in Hr as (-> & -> & _).
  peel H u1 p1 Hw. apply write_meta_Done in Hw as [-> _].
  apply put_cell_Done in H as (s1 & Hs1 & ->).
  cbn in Hs1. rewrite Hs in Hs1. inversion Hs1; subst s1.
  exists s. cbn. repeat split; auto.
Qed.

Lemma run_load_metadata_Done (p q : proc) (r : Z) :
  run_load_metadata p = Done r q ->
  exists s, cell p = Some s /\
            cell q = Some (snd (load_metadata s (f_meta (disk p)))) /\
            r = fst (load_metadata s (f_meta (disk p))) /\
            mapping q = mapping p /\ disk q = disk p.
Proof.
  unfold run_load_metadata. intros H.
  peel H s p1 Hg. apply get_cell_Done in Hg as [-> Hs].
  peel H m p1 Hr. apply read_meta_Done in Hr as (-> & -> & _).
  peel H u1 p1 Hw. apply put_cell_Done in Hw as (s1 & Hs1 & ->).
  apply ret_Done in H as [-> ->].
  rewrite Hs in Hs1. inversion Hs1; subst s1.
  exists s. cbn. repeat split; auto.
Qed.

Lemma run_store_metadata_Done (p q : proc) (u : unit) :
  run_store_metadata p = Done u q ->
  exists s, cell p = Some s /\
            q = set_disk p (set_f_meta (disk p)
                              (store_metadata s (f_meta (disk p)))).
Proof.
  unfold run_store_metadata. intros H.
  peel H s p1 Hg. apply get_cell_Done in Hg as [-> Hs].
  peel H m p1 Hr. apply read_meta_Done in Hr as (-> & -> & _).
  apply write_meta_Done in H as [-> _].
  now exists s.
Qed.

(** ** [scm_open] *)

(** What holds whenever [scm_open] returns a handle. *)
Lemma scm_open_Some (e : env) (truncate : bool) (p q : proc) (h : scm) :
  scm_open e truncate p = Done (Some h) q ->
  cell q = Some h /\
  f_regular (disk p) = true /\
  fd h = open_rdwr e /\
  mem h = vm_addr_of e + META_SIZE /\
  capacity h = f_size (disk p) / page e * page e /\
  mapping q = Some (vm_addr_of e, capacity h) /\
  (truncate = true -> utilized h = 0 /\ header_ok (f_meta (disk q))) /\
  (truncate = false ->
   disk q = disk p /\
   h = set_mem (snd (load_metadata
                       (mkScm (open_rdwr e) (vm_addr_of e) 0 (capacity h))
                       (f_meta (disk p))))
               (vm_addr_of e + META_SIZE)) /\
  capacity h <> 0.
Proof.
  unfold scm_open. fold (vm_addr_of e). intros H.
  peel H ok p1 Hm. apply sys_malloc_Done in Hm as [[-> ->] | [-> ->]];
    cbn [negb] in H; [| apply ret_Done in H as [H _]; discriminate].
  peel H u p1 Hz. apply put_cell_Done in Hz as (s0 & _ & ->).
  peel H r p1 Ho.
  assert (Hd1 : disk p1 = disk p /\ r = (if 0 <=? open_rdwr e
                                          then open_rdwr e else -1)).
  { revert Ho. unfold sys_open. destruct (0 <=? open_rdwr e);
      intros Ho; inversion Ho; auto. }
  destruct Hd1 as [Hd1 Hr].
  apply sys_open_untouched in Ho as [Hc1 Hm1]. cbn in Hc1, Hm1.
  peel H u1 p2 Hp. apply put_cell_Done in Hp as (s1 & Hs1 & ->).
  rewrite Hc1 in Hs1. inversion Hs1; subst s1; clear Hs1.
  peel H s p2 Hg. apply get_cell_Done in Hg as [-> Hs].
  cbn in Hs. inversion Hs; subst s; clear Hs. cbn [fd set_fd] in H.
  destruct (r <? 0) eqn:Hneg.
  { peel H u2 p3 Hf. apply ret_Done in H as [H _]. discriminate. }
  assert (Hfd : r = open_rdwr e).
  { destruct (0 <=? open_rdwr e); [exact Hr | lia]. }
  clear Hr. subst r.
  peel H fs p2 Hfs.
  eapply file_size_Done in Hfs; [| reflexivity].
  cbn in Hfs. destruct Hfs as (Hm2 & Hd2 & Hc2).
  destruct (vm_addr_of e <? brk e).
  { peel H u2 p3 Hf. apply ret_Done in H as [H _]. discriminate. }
  peel H failed p3 Ht.
  assert (Hu3 : untouched p2 p3 /\ (truncate = false -> p3 = p2)).
  { destruct truncate.
    - split; [now apply truncate_fails_untouched in Ht | discriminate].
    - apply ret_Done in Ht as [_ ->]. split; auto using untouched_refl. }
  destruct Hu3 as [[Hc3 Hm3] Hsame]. clear Ht.
  destruct failed.
  { peel H s p4 Hg. peel H c p5 Hc. peel H u2 p6 Hf.
    apply ret_Done in H as [H _]. discriminate. }
  peel H s p4 Hg. apply get_cell_Done in Hg as [-> Hs].
  rewrite Hc3 in Hs.
  destruct Hc2 as [Hc2 | [Hreg Hc2]]; rewrite Hc2 in Hs; [discriminate |].
  inversion Hs; subst s; clear Hs. cbn [capacity fd set_capacity] in H.
  rewrite Hd1 in *.
  peel H r p4 Hmm. apply sys_mmap_Done in Hmm as [(-> & -> & Hlen) | [-> ->]].
  2:{ peel H u2 p5 Hp. apply put_cell_Done in Hp as (s1 & Hs1 & ->).
      peel H s p5 Hg. apply get_cell_Done in Hg as [-> Hs].
      cbn in Hs. inversion Hs; subst s; clear Hs.
      cbn [mem set_mem] in H. rewrite Z.eqb_refl in H.
      peel H u3 p6 Hf. apply ret_Done in H as [H _]. discriminate. }
  peel H u2 p4 Hp. apply put_cell_Done in Hp as (s1 & Hs1 & ->).
  cbn in Hs1. rewrite Hc3, Hc2 in Hs1. inversion Hs1; subst s1; clear Hs1.
  peel H s p4 Hg. apply get_cell_Done in Hg as [-> Hs].
  cbn in Hs. inversion Hs; subst s; clear Hs. cbn [mem set_mem] in H.
  destruct (vm_addr_of e =? MAP_FAILED).
  { peel H u3 p6 Hf. apply ret_Done in H as [H _]. discriminate. }
  peel H u3 p4 Hmeta.
  peel H u4 p5 Hp. apply put_cell_Done in Hp as (s1 & Hs1 & ->).
  peel H s p5 Hg. apply get_cell_Done in Hg as [-> Hs].
  apply ret_Done in H as [Hh ->]. inversion Hh; subst s; clear Hh.
  cbn in Hs. inversion Hs; subst h; clear Hs.
  destruct truncate.
  - apply run_initialize_metadata_Done in Hmeta
      as (s & Hs & Hs' & Hmap & Hok).
    cbn in Hs, Hmap. inversion Hs; subst s; clear Hs.
    rewrite Hs' in Hs1. inversion Hs1; subst s1; clear Hs1.
    cbn. rewrite Hmap. repeat split; auto; try discriminate; apply Hok.
  - peel Hmeta r p5 Hl. apply ret_Done in Hmeta as [_ ->].
    apply run_load_metadata_Done in Hl as (s & Hs & Hs' & _ & Hmap & Hdisk).
    cbn in Hs, Hmap, Hdisk, Hs'. inversion Hs; subst s; clear Hs.
    rewrite Hs' in Hs1. inversion Hs1; subst s1; clear Hs1.
    rewrite (Hsame eq_refl) in *. rewrite Hd2 in *.
    unfold load_metadata in *.
    destruct (negb (signature (f_meta (disk p)) =? SCM_SIGNATURE));
      [| destruct (negb (checksum (f_meta (disk p)) =?
                         calculate_checksum (f_meta (disk p))))];
      cbn in *; rewrite Hmap; repeat split; auto; discriminate.
Qed.

(** Unfolds the field updates and projects the resulting records. *)
Ltac crunch :=
  unfold set_cell, set_fds, set_mapping, set_disk, set_f_meta,
    set_fd, set_mem, set_utilized, set_capacity;
  cbn [cell fds mapping disk fd mem utilized capacity
       f_regular f_size f_meta f_data
       negb andb orb existsb fst snd].

(** [scm_open] in reopen mode on a header that fails the validity
    check: whenever every system call is granted, the regular file
    holds at least one header and the header is refused by
    [load_metadata], the open still returns a handle, with
    [utilized = 0], and the file is left as it was. *)
Lemma scm_open_reopen_invalid_header (e : env) (p : proc) :
  malloc_ok e = true ->
  0 <= open_rdwr e ->
  fstat_size_ok e = true ->
  mmap_ok e = true ->
  brk e <= vm_addr_of e < MAP_FAILED ->
  f_regular (disk p) = true ->
  META_SIZE <= f_size (disk p) / page e * page e ->
  ~ header_ok (f_meta (disk p)) ->
  exists q,
    scm_open e false p =
    Done (Some (mkScm (open_rdwr e) (vm_addr_of e + META_SIZE) 0
                      (f_size (disk p) / page e * page e))) q /\
    disk q = disk p.
Proof.
  intros Hmalloc Hfd Hfstat Hmmap Hbrk Hreg Hcap Hbad.
  assert (Hge : (0 <=? open_rdwr e) = true) by now apply Z.leb_le.
  assert (Hlt : (open_rdwr e <? 0) = false) by now apply Z.ltb_ge.
  assert (Hvm : (vm_addr_of e <? brk e) = false) by (apply Z.ltb_ge; lia).
  assert (Hmf : (vm_addr_of e =? MAP_FAILED) = false) by (apply Z.eqb_neq; lia).
  assert (Hnz : (f_size (disk p) / page e * page e =? 0) = false)
    by (apply Z.eqb_neq; unfold META_SIZE in Hcap; lia).
  assert (Hhd : (META_SIZE <=? f_size (disk p) / page e * page e) = true)
    by now apply Z.leb_le.
  unfold scm_open, file_size, run_load_metadata. fold (vm_addr_of e).
  unfold bind, ret, sys_malloc, memset_zero, put_cell, get_cell, sys_open,
    sys_fstat, sys_mmap, read_meta, FREE, sys_free, is_open, header_at.
  rewrite Hmalloc, Hge. crunch.
  rewrite Hlt. crunch. rewrite Z.eqb_refl, Hfstat. crunch.
  rewrite Hreg. crunch. rewrite Hvm. crunch. rewrite Hnz. crunch.
  rewrite Z.eqb_refl, Hmmap. crunch.
  rewrite Hmf. crunch. rewrite Z.eqb_refl, Hhd. crunch.
  rewrite (load_metadata_bad _ _ Hbad). crunch.
  eexists. split; reflexivity.
Qed.

(** C1 at the failing input: an 8192-byte regular file whose header
    holds unrelated data (signature 2 instead of 0xDEEDBEED) is opened
    in reopen mode; [load_metadata] refuses the header, yet [scm_open]
    returns a handle with [utilized = 0]. *)
Theorem scm_open_accepts_foreign_header :
  ~ header_ok (f_meta foreign_file) /\
  fst (load_metadata (handle_at 0) (f_meta foreign_file)) = -1 /\
  exists q,
    scm_open env0 false (proc_of foreign_file) = Done (Some (handle_at 0)) q /\
    cell q = Some (handle_at 0) /\
    utilized (handle_at 0) = 0.
Proof.
  split; [intros [H _]; discriminate H |].
  split; [reflexivity |].
  eexists. split; [vm_compute; reflexivity |]. split; reflexivity.
Qed.

(** ** Failure paths of [scm_open] *)

(** Once [file_size] has released the handle, [scm_open] goes on using
    it: on a file that is not regular the open has no defined
    behaviour, whatever the mode. *)
Lemma scm_open_not_regular (e : env) (truncate : bool) (p : proc) :
  malloc_ok e = true ->
  0 <= open_rdwr e ->
  fstat_size_ok e = true ->
  f_regular (disk p) = false ->
  scm_open e truncate p = Undefined.
Proof.
  intros Hmalloc Hfd Hfstat Hreg.
  assert (Hge : (0 <=? open_rdwr e) = true) by now apply Z.leb_le.
  assert (Hlt : (open_rdwr e <? 0) = false) by now apply Z.ltb_ge.
  unfold scm_open, file_size, truncate_fails. fold (vm_addr_of e).
  unfold bind, ret, sys_malloc, memset_zero, put_cell, get_cell, sys_open,
    sys_fstat, FREE, sys_free, is_open.
  rewrite Hmalloc, Hge. crunch.
  rewrite Hlt. crunch. rewrite Z.eqb_refl, Hfstat. crunch.
  rewrite Hreg. crunch.
  destruct (vm_addr_of e <? brk e); crunch; [reflexivity |].
  destruct truncate; reflexivity.
Qed.

(** C2 at the failing input: the path names a character device, which
    opens read-write and is not a regular file.  [file_size] releases
    the handle and returns -1; [scm_open] drops that status and keeps
    using the released handle, so the call does not return an error:
    it has no defined behaviour. *)
Theorem scm_open_device_is_undefined :
  f_regular device_file = false /\
  scm_open env0 false (proc_of device_file) = Undefined /\
  scm_open env0 true (proc_of device_file) = Undefined.
Proof. repeat split; reflexivity. Qed.

(** C8 at the failing inputs.  Mapping-failed path: a regular file
    shorter than a page gives capacity 0, [mmap] fails, and the open
    returns NULL with descriptor 3 still open.  Address-unavailable
    path: with the break above the fixed address the open returns NULL
    with descriptor 3 still open.  The handle is released on both. *)
Theorem scm_open_failure_leaks_descriptor :
  (exists q,
      scm_open env0 false (proc_of short_file) = Done None q /\
      cell q = None /\ fds q = [3; 0; 1; 2]) /\
  (exists q,
      scm_open env_high_brk false (proc_of foreign_file) = Done None q /\
      cell q = None /\ fds q = [3; 0; 1; 2]) /\
  fds (proc_of short_file) = [0; 1; 2].
Proof.
  split; [| split]; try reflexivity;
    eexists; (split; [vm_compute; reflexivity |]); split; reflexivity.
Qed.

(** ** Calls on an open store *)

Lemma run_scm_malloc_Done (n : Z) (p q : proc) (r : option Z) :
  run_scm_malloc n p = Done r q ->
  exists s, cell p = Some s /\
            r = fst (scm_malloc s n) /\
            q = set_cell p (Some (snd (scm_malloc s n))).
Proof.
  unfold run_scm_malloc. intros H.
  peel H s p1 Hg. apply get_cell_Done in Hg as [-> Hs].
  peel H u p1 Hp. apply put_cell_Done in Hp as (s1 & Hs1 & ->).
  apply ret_Done in H as [-> ->].
  rewrite Hs in Hs1. inversion Hs1; subst s1. now exists s.
Qed.

Lemma store_byte_untouched (addr : Z) (b : ascii) (p q : proc) (u : unit) :
  store_byte addr b p = Done u q -> untouched p q.
Proof.
  unfold store_byte. destruct (data_at addr p); try discriminate.
  intros H. inversion H. now split.
Qed.

Lemma store_bytes_untouched (bs : list ascii) :
  forall (addr : Z) (p q : proc) (u : unit),
    store_bytes addr bs p = Done u q -> untouched p q.
Proof.
  induction bs as [| b bs IH]; intros addr p q u H; cbn [store_bytes] in H.
  - apply ret_Done in H as [_ ->]. apply untouched_refl.
  - peel H u1 p1 Hb. apply store_byte_untouched in Hb.
    apply IH in H. eauto using untouched_trans.
Qed.

Lemma scm_strdup_Done (s : string) (p q : proc) (r : option Z) :
  scm_strdup s p = Done r q ->
  exists h, cell p = Some h /\
            r = fst (scm_malloc h (wrap (strlen s + 1))) /\
            r <> None /\
            cell q = Some (snd (scm_malloc h (wrap (strlen s + 1)))) /\
            mapping q = mapping p.
Proof.
  unfold scm_strdup. intros H.
  peel H r1 p1 Hm. apply run_scm_malloc_Done in Hm as (h & Hh & -> & ->).
  peel H u p2 Hc. apply ret_Done in H as [-> ->].
  exists h. split; [exact Hh |]. split; [reflexivity |].
  destruct (fst (scm_malloc h (wrap (strlen s + 1)))) as [addr |];
    [| discriminate Hc].
  apply store_bytes_untouched in Hc as [Hc1 Hc2].
  split; [discriminate |]. now rewrite Hc1, Hc2.
Qed.

Lemma do_calls_within_capacity (cs : list call) :
  forall (p q : proc) (h : scm) (u : unit),
    cell p = Some h ->
    within_capacity h ->
    do_calls cs p = Done u q ->
    exists h', cell q = Some h' /\
               within_capacity h' /\
               capacity h' = capacity h /\
               mem h' = mem h /\
               fd h' = fd h /\
               mapping q = mapping p.
Proof.
  induction cs as [| c cs IH]; intros p q h u Hh Hin H; cbn [do_calls] in H.
  - apply ret_Done in H as [_ ->]. exists h. repeat split; auto; apply Hin.
  - peel H u1 p1 Hc.
    assert (Hstep : exists n, cell p1 = Some (snd (scm_malloc h n)) /\
                              mapping p1 = mapping p).
    { destruct c as [n | s]; cbn [do_call] in Hc; peel Hc r p2 Hr;
        apply ret_Done in Hc as [_ ->].
      - apply run_scm_malloc_Done in Hr as (h0 & Hh0 & _ & ->).
        rewrite Hh in Hh0. inversion Hh0; subst h0. now exists n.
      - apply scm_strdup_Done in Hr as (h0 & Hh0 & _ & _ & Hq & Hm).
        rewrite Hh in Hh0. inversion Hh0; subst h0. eauto. }
    destruct Hstep as (n & Hcell & Hmap).
    destruct (IH p1 q _ u Hcell (scm_malloc_within_capacity h n Hin) H)
      as (h' & Hq & Hin' & Hcap & Hmem & Hfd & Hmap').
    destruct (scm_malloc_frame h n) as (Ffd & Fmem & Fcap).
    exists h'. repeat split; try apply Hin'; congruence.
Qed.

(** ** [scm_close] *)

Lemma sys_close_disk (d : Z) (p q : proc) (a : Z) :
  sys_close d p = Done a q -> disk q = disk p.
Proof.
  unfold sys_close. destruct (is_open d p); intros H; now inversion H.
Qed.

Lemma sys_munmap_disk (e : env) (addr len : Z) (p q : proc) (a : Z) :
  sys_munmap e addr len p = Done a q -> disk q = disk p /\ cell q = cell p.
Proof.
  unfold sys_munmap. destruct (mapping p) as [[b l] |].
  - destruct ((b =? addr) && munmap_ok e); intros H; now inversion H.
  - intros H; now inversion H.
Qed.

Lemma sys_msync_Done (addr len : Z) (p q : proc) (a : Z) :
  sys_msync addr len p = Done a q -> q = p.
Proof.
  unfold sys_msync. destruct (mapping p) as [[b l] |]; intros H;
    now inversion H.
Qed.

(** What [scm_close] leaves behind whenever it returns: the header
    that [store_metadata] computes from the handle, and no handle. *)
Lemma scm_close_Done (e : env) (p q : proc) (u : unit) :
  scm_close e p = Done u q ->
  exists h, cell p = Some h /\
            f_meta (disk q) = store_metadata h (f_meta (disk p)) /\
            cell q = None.
Proof.
  unfold scm_close. intros H.
  peel H u1 p1 Hp. apply put_cell_Done in Hp as (h & Hh & ->).
  peel H u2 p1 Hs. apply run_store_metadata_Done in Hs as (h1 & Hh1 & ->).
  cbn in Hh1. inversion Hh1; subst h1; clear Hh1.
  peel H s p1 Hg. apply get_cell_Done in Hg as [-> _].
  peel H u3 p1 Hu.
  assert (Hd1 : disk p1 =
                set_f_meta (disk p)
                  (store_metadata (set_mem h (mem h - META_SIZE))
                                  (f_meta (disk p)))).
  { destruct (negb (mem s =? 0) && negb (mem s =? MAP_FAILED)).
    - peel Hu a1 p2 Hsync. apply sys_msync_Done in Hsync as ->.
      peel Hu a2 p3 Hun. apply sys_munmap_disk in Hun as [Hun _].
      apply ret_Done in Hu as [_ ->]. exact Hun.
    - apply ret_Done in Hu as [_ ->]. reflexivity. }
  clear Hu.
  peel H s2 p2 Hg. apply get_cell_Done in Hg as [-> _].
  peel H u4 p2 Hc.
  assert (Hd2 : disk p2 = disk p1).
  { destruct (negb (fd s2 =? 0)).
    - peel Hc a1 p3 Hcl. apply sys_close_disk in Hcl.
      apply ret_Done in Hc as [_ ->]. exact Hcl.
    - apply ret_Done in Hc as [_ ->]. reflexivity. }
  clear Hc. apply sys_free_Done in H. subst q.
  exists h. cbn. rewrite Hd2, Hd1. auto.
Qed.

(** [scm_close] on an open store, run forward: it returns, the file
    differs from the one before only in the header, which is the one
    [store_metadata] computes, and the handle is released. *)
Lemma scm_close_run (e : env) (p : proc) (h : scm) :
  cell p = Some h ->
  header_at (mem h - META_SIZE) p = true ->
  exists q,
    scm_close e p = Done tt q /\
    disk q = set_f_meta (disk p) (store_metadata h (f_meta (disk p))) /\
    cell q = None.
Proof.
  intros Hcell Hhdr.
  unfold scm_close, run_store_metadata.
  unfold bind, ret, put_cell, get_cell, read_meta, write_meta, sys_free,
    sys_msync, sys_munmap, sys_close.
  rewrite Hcell. crunch.
  unfold header_at in *. crunch.
  destruct (mapping p) as [[a len] |] eqn:Hmap; [| discriminate].
  rewrite Hhdr. crunch. rewrite Hhdr. crunch.
  apply andb_prop in Hhdr as [Ha _].
  unfold is_open.
  destruct (negb (mem h - META_SIZE =? 0) &&
            negb (mem h - META_SIZE =? MAP_FAILED)); crunch.
  - rewrite Ha. crunch.
    destruct (munmap_ok e); crunch;
      destruct (negb (fd h =? 0)); crunch;
        try (destruct (existsb _ (fds p)); crunch);
        eexists; repeat split; reflexivity.
  - destruct (negb (fd h =? 0)); crunch;
      try (destruct (existsb _ (fds p)); crunch);
      eexists; repeat split; reflexivity.
Qed.

(** C10: on an open store, [scm_close] returns, and the header it
    leaves has the handle's [utilized] as size, the checksum recomputed
    from it, and the signature it had before the close; the bytes of
    the file after the header are not written either, and the handle
    is released. *)
Theorem scm_close_keeps_signature (e : env) (p : proc) (h : scm) :
  cell p = Some h ->
  header_at (mem h - META_SIZE) p = true ->
  exists q,
    scm_close e p = Done tt q /\
    signature (f_meta (disk q)) = signature (f_meta (disk p)) /\
    size (f_meta (disk q)) = utilized h /\
    checksum (f_meta (disk q)) =
      Z.lxor (utilized h) (signature (f_meta (disk p))) /\
    (forall o, META_SIZE <= o -> f_data (disk q) o = f_data (disk p) o) /\
    cell q = None.
Proof.
  intros Hcell Hhdr.
  destruct (scm_close_run e p h Hcell Hhdr) as (q & Hclose & Hdisk & Hnone).
  exists q. rewrite Hdisk. cbn. repeat split; auto.
Qed.

(** Closing an open 8192-byte store with 6 bytes handed out. *)
Lemma scm_close_keeps_signature_witness :
  cell (open_store 6) = Some (handle_at 6) /\
  header_at (mem (handle_at 6) - META_SIZE) (open_store 6) = true /\
  exists q,
    scm_close env0 (open_store 6) = Done tt q /\
    signature (f_meta (disk q)) = signature (f_meta (disk (open_store 6))) /\
    size (f_meta (disk q)) = utilized (handle_at 6) /\
    checksum (f_meta (disk q)) =
      Z.lxor (utilized (handle_at 6))
             (signature (f_meta (disk (open_store 6)))) /\
    (forall o, META_SIZE <= o ->
               f_data (disk q) o = f_data (disk (open_store 6)) o) /\
    cell q = None.
Proof.
  split; [reflexivity |]. split; [reflexivity |].
  apply (scm_close_keeps_signature env0 (open_store 6) (handle_at 6));
    reflexivity.
Defined.

(** ** The bound [0 <= utilized <= capacity] *)

Lemma aligned_nonneg (sz pg : Z) : 0 <= sz -> 0 < pg -> 0 <= sz / pg * pg.
Proof.
  intros Hsz Hpg. apply Z.mul_nonneg_nonneg; [| lia].
  apply Z.div_pos; lia.
Qed.

(** The handle that [scm_open] returns is within capacity when the
    open is a fresh one, when the header is refused, or when the stored
    size is at most the capacity. *)
Lemma scm_open_within_capacity (e : env) (truncate : bool) (p q : proc)
      (h : scm) :
  0 < page e ->
  0 <= f_size (disk p) ->
  (truncate = false ->
   header_ok (f_meta (disk p)) ->
   0 <= size (f_meta (disk p)) <= f_size (disk p) / page e * page e) ->
  scm_open e truncate p = Done (Some h) q ->
  within_capacity h.
Proof.
  intros Hpg Hsz Hstored Hopen.
  apply scm_open_Some in Hopen
    as (_ & _ & _ & _ & Hcap & _ & Hfresh & Hre & _).
  pose proof (aligned_nonneg _ _ Hsz Hpg) as Hnn.
  unfold within_capacity. rewrite Hcap.
  destruct truncate.
  - destruct (Hfresh eq_refl) as [-> _]. lia.
  - destruct (Hre eq_refl) as [_ Hh].
    destruct (header_ok_dec (f_meta (disk p))) as [Hok | Hbad].
    + rewrite load_metadata_ok in Hh by exact Hok.
      rewrite Hh. cbn. now apply Hstored.
    + rewrite load_metadata_bad in Hh by exact Hbad.
      rewrite Hh. cbn. lia.
Qed.

(** C4, as amended: the bound [0 <= utilized <= capacity] holds for
    the handle returned by an open in truncate mode, and by a reopen
    whose header is refused or whose stored size is at most the
    capacity; from there it is kept by every sequence of allocate and
    duplicate_string calls, the capacity stays fixed, and the size
    that close writes back obeys the same bound. *)
Theorem within_capacity_invariant (e : env) (truncate : bool)
        (p p1 p2 : proc) (h : scm) (cs : list call) :
  0 < page e ->
  0 <= f_size (disk p) ->
  (truncate = false ->
   header_ok (f_meta (disk p)) ->
   0 <= size (f_meta (disk p)) <= f_size (disk p) / page e * page e) ->
  scm_open e truncate p = Done (Some h) p1 ->
  do_calls cs p1 = Done tt p2 ->
  within_capacity h /\
  exists h2,
    cell p2 = Some h2 /\
    within_capacity h2 /\
    capacity h2 = capacity h /\
    forall p3, scm_close e p2 = Done tt p3 ->
               0 <= size (f_meta (disk p3)) <= capacity h.
Proof.
  intros Hpg Hsz Hstored Hopen Hcalls.
  pose proof (scm_open_within_capacity _ _ _ _ _ Hpg Hsz Hstored Hopen) as Hin.
  split; [exact Hin |].
  apply scm_open_Some in Hopen as (Hcell & _).
  destruct (do_calls_within_capacity cs _ _ _ _ Hcell Hin Hcalls)
    as (h2 & Hcell2 & Hin2 & Hcap2 & _).
  exists h2. repeat split; try apply Hin2; try exact Hcell2; try exact Hcap2.
  - apply scm_close_Done in H as (h3 & Hh3 & Hmeta & _).
    rewrite Hmeta, store_metadata_fields. cbn.
    rewrite Hcell2 in Hh3. inversion Hh3; subst h3. apply Hin2.
  - apply scm_close_Done in H as (h3 & Hh3 & Hmeta & _).
    rewrite Hmeta, store_metadata_fields. cbn.
    rewrite Hcell2 in Hh3. inversion Hh3; subst h3.
    rewrite <- Hcap2. apply Hin2.
Qed.

(** A reopen of a store that records 6 bytes, followed by a
    duplicate_string and an allocate. *)
Lemma within_capacity_invariant_witness :
  exists (h : scm) (p1 p2 : proc),
    0 < page env0 /\
    0 <= f_size (disk (proc_of stored_file)) /\
    scm_open env0 false (proc_of stored_file) = Done (Some h) p1 /\
    do_calls [Strdup "hello"; Malloc 100] p1 = Done tt p2 /\
    within_capacity h /\
    exists h2,
      cell p2 = Some h2 /\
      within_capacity h2 /\
      capacity h2 = capacity h /\
      forall p3, scm_close env0 p2 = Done tt p3 ->
                 0 <= size (f_meta (disk p3)) <= capacity h.
Proof.
  eexists. eexists. eexists.
  split; [reflexivity |]. split; [discriminate |].
  split; [vm_compute; reflexivity |].
  split; [vm_compute; reflexivity |].
  eapply (within_capacity_invariant env0 false (proc_of stored_file) _ _ _
            [Strdup "hello"; Malloc 100]).
  - reflexivity.
  - discriminate.
  - intros _ _. split; discriminate.
  - vm_compute. reflexivity.
  - vm_compute. reflexivity.
Defined.

(** C4, as stated, fails on a reopen: the 4096-byte file carries a
    header that passes the validity check and records 2^20 allocated
    bytes; [scm_open] returns a handle with [utilized = 2^20] and
    [capacity = 4096]. *)
Lemma reopen_oversized_breaks_bound :
  header_ok (f_meta oversized_file) /\
  exists q,
    scm_open env0 false (proc_of oversized_file) =
    Done (Some (mkScm 3 (vm_base + META_SIZE) (2 ^ 20) 4096)) q /\
    ~ within_capacity (mkScm 3 (vm_base + META_SIZE) (2 ^ 20) 4096).
Proof.
  split; [split; reflexivity |].
  eexists. split; [vm_compute; reflexivity |].
  unfold within_capacity. cbn. lia.
Qed.

(** ** [scm_strdup] *)

(** C3 at the failing input: all 8192 bytes of the store are handed
    out; [scm_malloc] returns NULL for the six bytes of "hello", and
    [scm_strdup] passes that NULL to [strcpy]: the call has no defined
    behaviour instead of returning the failure. *)
Theorem scm_strdup_writes_through_null :
  fst (scm_malloc (handle_at 8192) (wrap (strlen "hello" + 1))) = None /\
  scm_strdup "hello" (open_store 8192) = Undefined.
Proof. split; reflexivity. Qed.

(** ** More on [scm_open] *)

(** A store whose page-aligned size is zero is never opened: [mmap]
    refuses the zero length. *)
Lemma scm_open_empty_store (e : env) (truncate : bool) (p q : proc) (h : scm) :
  f_size (disk p) / page e * page e = 0 ->
  scm_open e truncate p <> Done (Some h) q.
Proof.
  intros Hzero Hopen.
  apply scm_open_Some in Hopen as (_ & _ & _ & _ & Hcap & _ & _ & _ & Hnz).
  congruence.
Qed.

(** ** The loops have fuel enough *)

Lemma bind_OutOfFuel {A B : Type} (c : M A) (k : A -> M B) (p : proc) :
  bind c k p = OutOfFuel ->
  c p = OutOfFuel \/ exists a p1, c p = Done a p1 /\ k a p1 = OutOfFuel.
Proof.
  unfold bind. destruct (c p) as [a p1 | |]; try discriminate; eauto.
Qed.

Lemma sys_write_result (e : env) (k : nat) (d off len : Z) (p : proc) :
  exists r q, sys_write e k d off len p = Done r q /\ (r = len \/ r = -1).
Proof.
  unfold sys_write. destruct (is_open d p && negb (write_fails e k)); eauto.
Qed.

Lemma sys_close_returns (d : Z) (p : proc) :
  exists r q, sys_close d p = Done r q.
Proof. unfold sys_close. destruct (is_open d p); eauto. Qed.

Lemma zero_loop_has_fuel (e : env) (fuel : nat) :
  forall (k : nat) (fdw bw nbytes : Z) (p : proc),
    0 <= bw ->
    nbytes < 2 ^ 63 ->
    nbytes - bw <= 4096 * (Z.of_nat fuel - 1) ->
    (0 < fuel)%nat ->
    zero_loop e fuel k fdw bw nbytes p <> OutOfFuel.
Proof.
  induction fuel as [| fuel IH]; intros k fdw bw nbytes p Hbw Hn Hfuel Hpos;
    [lia |].
  cbn [zero_loop]. destruct (bw <? nbytes) eqn:Hlt.
  - apply Z.ltb_lt in Hlt.
    destruct (sys_write_result e k fdw bw 4096 p) as (r & q & Hw & Hr).
    rewrite (bind_step _ _ _ _ _ Hw).
    destruct Hr as [-> | ->]; cbn [Z.eqb Pos.eqb].
    + rewrite wrap_small by (unfold SIZE_BITS; lia).
      apply IH; lia.
    + destruct (sys_close_returns fdw q) as (r & q' & Hc).
      rewrite (bind_step _ _ _ _ _ Hc). discriminate.
  - destruct (sys_close_returns fdw p) as (r & q & Hc).
    rewrite (bind_step _ _ _ _ _ Hc). discriminate.
Qed.

(** [init_zero] returns on every file size an [off_t] can hold. *)
Lemma init_zero_has_fuel (e : env) (nbytes : Z) (p : proc) :
  0 <= nbytes < 2 ^ 63 ->
  init_zero e nbytes p <> OutOfFuel.
Proof.
  intros Hn. unfold init_zero.
  assert (Ho : exists r q, sys_open (open_wronly e) p = Done r q)
    by (unfold sys_open; destruct (0 <=? open_wronly e); eauto).
  destruct Ho as (r & q & Ho). rewrite (bind_step _ _ _ _ _ Ho).
  destruct (r =? -1); [discriminate |].
  apply zero_loop_has_fuel; try lia.
  pose proof (Z.div_mod nbytes 4096 ltac:(lia)) as Hdm.
  pose proof (Z.mod_pos_bound nbytes 4096 ltac:(lia)) as Hmod.
  assert (0 <= nbytes / 4096) by (apply Z.div_pos; lia).
  rewrite Nat2Z.inj_add, Z2Nat.id by lia. lia.
Qed.

Lemma fuel_ret {A : Type} (a : A) : fuel_suffices (ret a).
Proof. intros p. discriminate. Qed.

Lemma fuel_bind {A B : Type} (c : M A) (k : A -> M B) :
  fuel_suffices c -> (forall a, fuel_suffices (k a)) ->
  fuel_suffices (bind c k).
Proof.
  intros Hc Hk p H. apply bind_OutOfFuel in H as [H | (a & p1 & _ & H)].
  - now apply (Hc p).
  - now apply (Hk a p1).
Qed.

Lemma fuel_get_cell : fuel_suffices get_cell.
Proof. intros p. unfold get_cell. destruct (cell p); discriminate. Qed.

Lemma fuel_put_cell (f : scm -> scm) : fuel_suffices (put_cell f).
Proof. intros p. unfold put_cell. destruct (cell p); discriminate. Qed.

Lemma fuel_sys_free : fuel_suffices sys_free.
Proof. intros p. unfold sys_free. destruct (cell p); discriminate. Qed.

Lemma fuel_sys_malloc (e : env) : fuel_suffices (sys_malloc e).
Proof. intros p. unfold sys_malloc. destruct (malloc_ok e); discriminate. Qed.

Lemma fuel_sys_open (r : Z) : fuel_suffices (sys_open r).
Proof. intros p. unfold sys_open. destruct (0 <=? r); discriminate. Qed.

Lemma fuel_sys_close (d : Z) : fuel_suffices (sys_close d).
Proof. intros p. unfold sys_close. destruct (is_open d p); discriminate. Qed.

Lemma fuel_sys_fstat (ok : bool) (d : Z) : fuel_suffices (sys_fstat ok d).
Proof.
  intros p. unfold sys_fstat. destruct (ok && is_open d p); discriminate.
Qed.

Lemma fuel_sys_mmap (e : env) (addr len d : Z) :
  fuel_suffices (sys_mmap e addr len d).
Proof.
  intros p. unfold sys_mmap.
  destruct (negb (len =? 0) && is_open d p && mmap_ok e); discriminate.
Qed.

Lemma fuel_read_meta (addr : Z) : fuel_suffices (read_meta addr).
Proof.
  intros p. unfold read_meta. destruct (header_at addr p); discriminate.
Qed.

Lemma fuel_write_meta (addr : Z) (m : metadata) :
  fuel_suffices (write_meta addr m).
Proof.
  intros p. unfold write_meta. destruct (header_at addr p); discriminate.
Qed.

Create HintDb fuel.
#[local] Hint Resolve fuel_ret fuel_get_cell fuel_put_cell fuel_sys_free
  fuel_sys_malloc fuel_sys_open fuel_sys_close fuel_sys_fstat fuel_sys_mmap
  fuel_read_meta fuel_write_meta : fuel.

(** Splits a composite computation into its calls. *)
Ltac fuel_split :=
  repeat first
    [ solve [auto with fuel]
    | apply fuel_bind; [| intros ?]
    | match goal with
      | |- fuel_suffices (if ?b then _ else _) => destruct b
      | |- fuel_suffices (match ?x with _ => _ end) => destruct x
      end ].

Lemma fuel_file_size (e : env) : fuel_suffices (file_size e).
Proof. unfold file_size, FREE. fuel_split. Qed.

Lemma fuel_run_initialize_metadata : fuel_suffices run_initialize_metadata.
Proof. unfold run_initialize_metadata. fuel_split. Qed.

Lemma fuel_run_load_metadata : fuel_suffices run_load_metadata.
Proof. unfold run_load_metadata. fuel_split. Qed.

#[local] Hint Resolve fuel_file_size fuel_run_initialize_metadata
  fuel_run_load_metadata : fuel.

Lemma file_size_disk (e : env) (p q : proc) (r : Z) :
  file_size e p = Done r q -> disk q = disk p.
Proof.
  intros H. destruct (cell p) as [s |] eqn:Hcell.
  - now apply (file_size_Done e p q s r Hcell) in H.
  - unfold file_size, bind, get_cell in H. now rewrite Hcell in H.
Qed.

Lemma truncate_fails_has_fuel (e : env) (p : proc) :
  0 <= f_size (disk p) < 2 ^ 63 ->
  truncate_fails e p <> OutOfFuel.
Proof.
  intros Hsz H. unfold truncate_fails in H.
  apply bind_OutOfFuel in H as [H | (s & p1 & Hg & H)];
    [now apply fuel_get_cell in H |].
  apply get_cell_Done in Hg as [-> _].
  apply bind_OutOfFuel in H as [H | (st & p1 & Hst & H)];
    [now apply fuel_sys_fstat in H |].
  apply sys_fstat_Done in Hst as [-> [-> | ->]]; [discriminate |].
  apply bind_OutOfFuel in H as [H | (z & p1 & _ & H)]; [| discriminate].
  now apply init_zero_has_fuel in H.
Qed.

(** [scm_open] returns or is undefined on every file whose size an
    [off_t] can hold: the zero-fill loop always has fuel enough. *)
Lemma scm_open_has_fuel (e : env) (truncate : bool) (p : proc) :
  0 <= f_size (disk p) < 2 ^ 63 ->
  scm_open e truncate p <> OutOfFuel.
Proof.
  intros Hsz H. unfold scm_open, memset_zero, FREE in H.
  apply bind_OutOfFuel in H as [H | (ok & p1 & Hm & H)];
    [now apply fuel_sys_malloc in H |].
  assert (Hd1 : disk p1 = disk p)
    by (apply sys_malloc_Done in Hm as [[_ ->] | [_ ->]]; reflexivity).
  clear Hm. destruct (negb ok); [discriminate |].
  apply bind_OutOfFuel in H as [H | (u & p2 & Hz & H)];
    [now apply fuel_put_cell in H |].
  apply put_cell_Done in Hz as (s0 & _ & ->).
  apply bind_OutOfFuel in H as [H | (r & p2 & Ho & H)];
    [now apply fuel_sys_open in H |].
  assert (Hd2 : disk p2 = disk p).
  { revert Ho. unfold sys_open. destruct (0 <=? open_rdwr e);
      intros Ho; inversion Ho; exact Hd1. }
  clear Ho.
  apply bind_OutOfFuel in H as [H | (u1 & p3 & Hp & H)];
    [now apply fuel_put_cell in H |].
  apply put_cell_Done in Hp as (s1 & _ & ->).
  apply bind_OutOfFuel in H as [H | (s & p3 & Hg & H)];
    [now apply fuel_get_cell in H |].
  apply get_cell_Done in Hg as [-> _].
  destruct (fd s <? 0); [revert H; apply fuel_bind; auto with fuel |].
  apply bind_OutOfFuel in H as [H | (fs & p3 & Hfs & H)];
    [now apply fuel_file_size in H |].
  apply file_size_disk in Hfs. cbn [disk set_cell] in Hfs.
  destruct (_ <? brk e); [revert H; apply fuel_bind; auto with fuel |].
  apply bind_OutOfFuel in H as [H | (failed & p4 & _ & H)].
  { destruct truncate; [| discriminate].
    apply truncate_fails_has_fuel in H; [exact H |].
    now rewrite Hfs, Hd2. }
  revert H. destruct failed; [fuel_split |].
  apply fuel_bind; [auto with fuel | intros s2].
  apply fuel_bind; [auto with fuel | intros r2].
  apply fuel_bind; [auto with fuel | intros u2].
  apply fuel_bind; [auto with fuel | intros s3].
  destruct (mem s3 =? MAP_FAILED); [fuel_split |].
  apply fuel_bind; [destruct truncate; fuel_split | intros u3].
  fuel_split.
Qed.

(** ** [scm_strdup] on the success path *)

Lemma list_ascii_length (s : string) :
  List.length (list_ascii_of_string s) = String.length s.
Proof. induction s as [| c s IH]; cbn; congruence. Qed.

Lemma store_byte_run (a len addr : Z) (b : ascii) (p : proc) :
  mapping p = Some (a, len) ->
  a + META_SIZE <= addr < a + len ->
  store_byte addr b p =
  Done tt (set_disk p (set_f_byte (disk p) (addr - a) b)).
Proof.
  intros Hmap Hin. unfold store_byte, data_at, map_base. rewrite Hmap.
  destruct (a + META_SIZE <=? addr) eqn:H1; [| lia].
  destruct (addr <? a + len) eqn:H2; [| lia].
  reflexivity.
Qed.

Lemma load_byte_set_disk_same (a len addr : Z) (b : ascii) (p : proc) :
  mapping p = Some (a, len) ->
  a + META_SIZE <= addr < a + len ->
  load_byte addr (set_disk p (set_f_byte (disk p) (addr - a) b)) = Some b.
Proof.
  intros Hmap Hin. unfold load_byte, data_at, map_base. cbn. rewrite Hmap.
  destruct (a + META_SIZE <=? addr) eqn:H1; [| lia].
  destruct (addr <? a + len) eqn:H2; [| lia].
  cbn. now rewrite Z.eqb_refl.
Qed.

Lemma load_byte_set_disk_other (a len addr x : Z) (b : ascii) (p : proc) :
  mapping p = Some (a, len) ->
  x <> addr ->
  load_byte x (set_disk p (set_f_byte (disk p) (addr - a) b)) = load_byte x p.
Proof.
  intros Hmap Hne. unfold load_byte, data_at, map_base. cbn. rewrite Hmap.
  destruct ((a + META_SIZE <=? x) && (x <? a + len)); [| reflexivity].
  destruct (x - a =? addr - a) eqn:Heq; [lia | reflexivity].
Qed.

(** [store_bytes] inside the usable part of the mapping: it returns,
    the bytes read back in order, and lower addresses keep their
    content. *)
Lemma store_bytes_run (a len : Z) (bs : list ascii) :
  forall (addr : Z) (p : proc),
    mapping p = Some (a, len) ->
    a + META_SIZE <= addr ->
    addr + Z.of_nat (List.length bs) <= a + len ->
    exists q,
      store_bytes addr bs p = Done tt q /\
      untouched p q /\
      (forall i, (i < List.length bs)%nat ->
                 load_byte (addr + Z.of_nat i) q = Some (nth i bs zero)) /\
      (forall x, x < addr -> load_byte x q = load_byte x p).
Proof.
  induction bs as [| b bs IH]; intros addr p Hmap Hlo Hhi;
    cbn [store_bytes List.length] in *.
  - exists p. repeat split; auto. intros i Hi. inversion Hi.
  - rewrite (bind_step _ _ _ _ _ (store_byte_run a len addr b p Hmap
                                    ltac:(lia))).
    set (p1 := set_disk p (set_f_byte (disk p) (addr - a) b)).
    destruct (IH (addr + 1) p1 Hmap ltac:(lia) ltac:(lia))
      as (q & Hrun & [Hc Hm] & Hread & Hlow).
    exists q. split; [exact Hrun |]. split; [now split |]. split.
    + intros [| i] Hi.
      * rewrite Z.add_0_r, Hlow by lia.
        apply (load_byte_set_disk_same a len); [exact Hmap | lia].
      * replace (addr + Z.of_nat (S i)) with (addr + 1 + Z.of_nat i) by lia.
        apply Hread. lia.
    + intros x Hx. rewrite Hlow by lia.
      apply (load_byte_set_disk_other a len); [exact Hmap | lia].
Qed.

Lemma run_scm_malloc_run (n : Z) (p : proc) (h : scm) :
  cell p = Some h ->
  run_scm_malloc n p =
  Done (fst (scm_malloc h n)) (set_cell p (Some (snd (scm_malloc h n)))).
Proof.
  intros Hcell. unfold run_scm_malloc, bind, get_cell, put_cell, ret.
  rewrite Hcell. cbn iota beta. now rewrite Hcell.
Qed.

(** When the guard of [scm_malloc] passes and the handed-out range
    lies in the usable part of a mapping inside the address space,
    [scm_strdup] returns the address [mem + utilized], advances
    [utilized] by [strlen s + 1], and the characters of [s] followed
    by NUL read back from there. *)
Lemma scm_strdup_copies (s : string) (p : proc) (h : scm) (a len : Z) :
  cell p = Some h ->
  mapping p = Some (a, len) ->
  0 <= a -> a + len <= 2 ^ SIZE_BITS ->
  wrap (utilized h + wrap (strlen s + 1)) <= capacity h ->
  a + META_SIZE <= mem h + utilized h ->
  mem h + utilized h + strlen s + 1 <= a + len ->
  exists q,
    scm_strdup s p = Done (Some (mem h + utilized h)) q /\
    cell q = Some (set_utilized h (wrap (utilized h + wrap (strlen s + 1)))) /\
    forall i, (i <= String.length s)%nat ->
              load_byte (mem h + utilized h + Z.of_nat i) q =
              Some (nth i (list_ascii_of_string s ++ [zero]) zero).
Proof.
  intros Hcell Hmap Ha Htop Hguard Hlo Hhi.
  assert (Hstr : 0 <= strlen s) by (unfold strlen; lia).
  unfold scm_strdup.
  rewrite (bind_step _ _ _ _ _ (run_scm_malloc_run _ p h Hcell)).
  unfold scm_malloc.
  destruct (wrap (utilized h + wrap (strlen s + 1)) <=? capacity h) eqn:Hle;
    [| lia].
  rewrite pointer_in_range by (unfold META_SIZE in *; lia).
  cbn [fst snd strcpy].
  set (p1 := set_cell p _).
  assert (Hlen : Z.of_nat (List.length (list_ascii_of_string s ++ [zero]))
                 = strlen s + 1).
  { rewrite length_app, list_ascii_length. unfold strlen. cbn. lia. }
  destruct (store_bytes_run a len (list_ascii_of_string s ++ [zero])
              (mem h + utilized h) p1 Hmap Hlo ltac:(lia))
    as (q & Hrun & [Hc _] & Hread & _).
  exists q. rewrite (bind_step _ _ _ _ _ Hrun). cbn [ret].
  split; [reflexivity |]. split; [now rewrite Hc |].
  intros i Hi. apply Hread.
  rewrite length_app, list_ascii_length. cbn. lia.
Qed.

(** The scenario of a fresh store: an 8192-byte file opened with
    truncate, "hello" duplicated, the store closed and reopened. *)
Example fresh_store_scenario :
  exists q,
    (scm_open env0 true ;;
     scm_strdup "hello" ;;
     scm_close env0 ;;
     scm_open env0 false) (proc_of foreign_file) =
    Done (Some (handle_at 6)) q /\
    f_meta (disk q) = stored_meta /\
    map (fun i => load_byte (vm_base + META_SIZE + i) q) [0; 1; 2; 3; 4; 5] =
    map Some (list_ascii_of_string "hello" ++ [zero]).
Proof.
  eexists. split; [vm_compute; reflexivity |]. split; reflexivity.
Qed.

(** The handle of the C6 counterexample is one that [scm_open] hands
    out: the foreign file is opened in reopen mode, "hello" is
    duplicated, the store is closed and opened again.  The header
    after the close is the stored one with the foreign signature, and
    the second open comes back with [utilized = 0], not 6. *)
Example foreign_store_loses_allocations :
  exists q,
    (scm_open env0 false ;;
     scm_strdup "hello" ;;
     scm_close env0 ;;
     scm_open env0 false) (proc_of foreign_file) =
    Done (Some (handle_at 0)) q /\
    f_meta (disk q) = store_metadata (handle_at 6) foreign_meta.
Proof.
  eexists. split; [vm_compute; reflexivity | reflexivity].
Qed.

(** The handle that [scm_open] returns meets what [scm_close] needs:
    stepping back over the header lands on the start of the mapping. *)
Lemma scm_open_then_close (e : env) (truncate : bool) (p q : proc) (h : scm) :
  scm_open e truncate p = Done (Some h) q ->
  META_SIZE <= capacity h ->
  exists r,
    scm_close e q = Done tt r /\
    f_meta (disk r) = store_metadata h (f_meta (disk q)) /\
    cell r = None.
Proof.
  intros Hopen Hcap.
  apply scm_open_Some in Hopen as (Hcell & _ & _ & Hmem & _ & Hmap & _).
  assert (Hhdr : header_at (mem h - META_SIZE) q = true).
  { unfold header_at. rewrite Hmap, Hmem.
    replace (vm_addr_of e + META_SIZE - META_SIZE) with (vm_addr_of e) by lia.
    rewrite Z.eqb_refl. now apply Z.leb_le. }
  destruct (scm_close_run e q h Hcell Hhdr)
    as (r & Hclose & _ & Hnone).
  exists r. split; [exact Hclose |]. split; [| exact Hnone].
  now apply scm_close_Done in Hclose as (h' & Hh' & -> & _);
    rewrite Hcell in Hh'; inversion Hh'.
Qed.

(** * Further properties of scm.c *)

(** ** The header check *)

Lemma lxor_cancel_r (a b c : Z) : Z.lxor a c = Z.lxor b c -> a = b.
Proof.
  intros H. apply (f_equal (fun x => Z.lxor x c)) in H.
  now rewrite !Z.lxor_assoc, Z.lxor_nilpotent, !Z.lxor_0_r in H.
Qed.

(** X1: a header written by [initialize_metadata] is accepted by
    [load_metadata], which reads back [utilized = 0], whatever the
    header held before. *)
Theorem initialize_then_load (s s' : scm) (meta : metadata) :
  load_metadata s' (snd (initialize_metadata s meta)) = (0, set_utilized s' 0)
  /\ utilized (fst (initialize_metadata s meta)) = 0
  /\ capacity (fst (initialize_metadata s meta)) = capacity s.
Proof.
  split; [| split; reflexivity].
  apply load_metadata_ok. apply initialize_metadata_valid.
Qed.

(** X2: on a header that passes the check, changing any single one of
    the three words makes [load_metadata] refuse it. *)
Theorem load_detects_single_word_change (s : scm) (meta : metadata) (v : Z) :
  header_ok meta ->
  (v <> size meta -> load_metadata s (set_size meta v) = (-1, s)) /\
  (v <> signature meta -> load_metadata s (set_signature meta v) = (-1, s)) /\
  (v <> checksum meta -> load_metadata s (set_checksum meta v) = (-1, s)).
Proof.
  intros [Hsig Hsum]. repeat split; intros Hv; apply load_metadata_bad;
    intros [Hsig' Hsum']; cbn in Hsig', Hsum'.
  - rewrite Hsum in Hsum'. apply lxor_cancel_r in Hsum'. congruence.
  - congruence.
  - congruence.
Qed.

Lemma load_detects_single_word_change_witness :
  header_ok stored_meta /\
  (7 <> size stored_meta ->
   load_metadata (handle_at 0) (set_size stored_meta 7) =
   (-1, handle_at 0)) /\
  (7 <> signature stored_meta ->
   load_metadata (handle_at 0) (set_signature stored_meta 7) =
   (-1, handle_at 0)) /\
  (7 <> checksum stored_meta ->
   load_metadata (handle_at 0) (set_checksum stored_meta 7) =
   (-1, handle_at 0)).
Proof.
  split; [split; reflexivity |].
  apply (load_detects_single_word_change (handle_at 0) stored_meta 7).
  split; reflexivity.
Defined.

(** X3: the check does not see a change that flips the same bits in
    the size and in the checksum: the header is still accepted and
    the altered size becomes [utilized]. *)
Theorem load_misses_paired_change (s : scm) (meta : metadata) (d : Z) :
  header_ok meta ->
  load_metadata s (mkMeta (Z.lxor (size meta) d) (signature meta)
                          (Z.lxor (checksum meta) d)) =
  (0, set_utilized s (Z.lxor (size meta) d)).
Proof.
  intros [Hsig Hsum]. apply load_metadata_ok. split; cbn; [exact Hsig |].
  rewrite Hsum, !Z.lxor_assoc. f_equal. apply Z.lxor_comm.
Qed.

Lemma load_misses_paired_change_witness :
  header_ok stored_meta /\
  load_metadata (handle_at 0)
    (mkMeta (Z.lxor (size stored_meta) 4096) (signature stored_meta)
            (Z.lxor (checksum stored_meta) 4096)) =
  (0, set_utilized (handle_at 0) (Z.lxor (size stored_meta) 4096)).
Proof.
  split; [split; reflexivity |].
  apply (load_misses_paired_change (handle_at 0) stored_meta 4096).
  split; reflexivity.
Defined.

(** ** The allocator in use *)

Lemma total_nonneg (ns : list Z) : Forall (fun n => 0 <= n) ns -> 0 <= total ns.
Proof.
  induction 1 as [| n ns Hn _ IH]; cbn; [lia |]. fold (total ns). lia.
Qed.

Lemma back_to_back_in_range (ns : list Z) :
  forall base : Z,
    Forall (fun n => 0 <= n) ns ->
    0 < base ->
    base + total ns < 2 ^ SIZE_BITS ->
    map pointer (back_to_back base ns) = map Some (back_to_back base ns).
Proof.
  induction ns as [| n ns IH]; intros base Hns Hbase Htop; [reflexivity |].
  inversion Hns as [| n' ns' Hn Hns']; subst.
  pose proof (total_nonneg ns Hns') as Htot.
  assert (Hsum : total (n :: ns) = n + total ns) by reflexivity.
  rewrite Hsum in Htop.
  cbn [back_to_back map].
  rewrite pointer_in_range by lia. rewrite IH by (auto; lia). reflexivity.
Qed.

(** X4: requests that fit as a whole are all granted; the blocks are
    handed out back to back from [mem + utilized] (as 64-bit
    pointers), the cursor ends [total ns] bytes further, and nothing
    else in the handle changes.  When the region lies inside the
    address space the pointers are exactly the addresses
    [mem + utilized], [mem + utilized + n1], ..., so that the blocks
    do not overlap. *)
Theorem scm_malloc_all_back_to_back (ns : list Z) :
  forall s : scm,
    Forall (fun n => 0 <= n) ns ->
    0 <= utilized s ->
    utilized s + total ns <= capacity s ->
    capacity s < 2 ^ SIZE_BITS ->
    scm_malloc_all s ns =
    (map pointer (back_to_back (mem s + utilized s) ns),
     set_utilized s (utilized s + total ns)) /\
    (0 < mem s ->
     mem s + capacity s < 2 ^ SIZE_BITS ->
     scm_malloc_all s ns =
     (map Some (back_to_back (mem s + utilized s) ns),
      set_utilized s (utilized s + total ns))).
Proof.
  assert (Hall : forall s : scm,
             Forall (fun n => 0 <= n) ns ->
             0 <= utilized s ->
             utilized s + total ns <= capacity s ->
             capacity s < 2 ^ SIZE_BITS ->
             scm_malloc_all s ns =
             (map pointer (back_to_back (mem s + utilized s) ns),
              set_utilized s (utilized s + total ns))).
  { induction ns as [| n ns IH]; intros s Hns Hu Hfit Hcap.
    - cbn. rewrite Z.add_0_r. now destruct s.
    - inversion Hns as [| n' ns' Hn Hns']; subst.
      pose proof (total_nonneg ns Hns') as Htot.
      assert (Hsum : total (n :: ns) = n + total ns) by reflexivity.
      rewrite Hsum in *.
      cbn [scm_malloc_all back_to_back map].
      rewrite scm_malloc_fits by lia.
      rewrite IH; cbn [utilized capacity mem set_utilized]; try lia; auto.
      unfold set_utilized. cbn [fd mem utilized capacity].
      replace (mem s + (utilized s + n)) with (mem s + utilized s + n) by lia.
      replace (utilized s + n + total ns) with (utilized s + (n + total ns))
        by lia.
      reflexivity. }
  intros s Hns Hu Hfit Hcap. split; [now apply Hall |].
  intros Hmem Htop. rewrite Hall by assumption.
  rewrite back_to_back_in_range by (auto; lia). reflexivity.
Qed.

Lemma scm_malloc_all_back_to_back_witness :
  Forall (fun n => 0 <= n) [6; 0; 100] /\
  0 <= utilized (handle_at 16) /\
  utilized (handle_at 16) + total [6; 0; 100] <= capacity (handle_at 16) /\
  capacity (handle_at 16) < 2 ^ SIZE_BITS /\
  scm_malloc_all (handle_at 16) [6; 0; 100] =
  (map pointer (back_to_back (mem (handle_at 16) + utilized (handle_at 16))
                             [6; 0; 100]),
   set_utilized (handle_at 16) (utilized (handle_at 16) + total [6; 0; 100]))
  /\
  (0 < mem (handle_at 16) ->
   mem (handle_at 16) + capacity (handle_at 16) < 2 ^ SIZE_BITS ->
   scm_malloc_all (handle_at 16) [6; 0; 100] =
   (map Some (back_to_back (mem (handle_at 16) + utilized (handle_at 16))
                           [6; 0; 100]),
    set_utilized (handle_at 16)
                 (utilized (handle_at 16) + total [6; 0; 100]))).
Proof.
  assert (H : Forall (fun n => 0 <= n) [6; 0; 100])
    by (repeat constructor; discriminate).
  split; [exact H |]. split; [discriminate |].
  split; [discriminate |]. split; [reflexivity |].
  apply (scm_malloc_all_back_to_back [6; 0; 100] (handle_at 16) H);
    [discriminate | discriminate | reflexivity].
Defined.

(** X5: a store that is used up refuses every request of 1 up to
    2^64 - capacity - 1 bytes and keeps the handle as it is, while a
    request of 0 bytes is still granted: it returns the pointer just
    past the region, [mem + capacity] in 64 bits (that address itself
    when it lies inside the address space), and does not move the
    cursor. *)
Theorem scm_malloc_on_full_store (s : scm) (n : Z) :
  0 <= capacity s < 2 ^ SIZE_BITS ->
  utilized s = capacity s ->
  (0 < n < 2 ^ SIZE_BITS - capacity s -> scm_malloc s n = (None, s)) /\
  scm_malloc s 0 = (pointer (mem s + capacity s), s) /\
  (0 < mem s + capacity s < 2 ^ SIZE_BITS ->
   scm_malloc s 0 = (Some (mem s + capacity s), s)).
Proof.
  intros Hcap Hfull.
  assert (Hzero : scm_malloc s 0 = (pointer (mem s + capacity s), s)).
  { rewrite scm_malloc_fits by lia.
    rewrite Z.add_0_r, Hfull. destruct s; cbn in *; now subst. }
  split; [| split].
  - intros Hn. apply scm_malloc_refused.
    rewrite wrap_small by lia. lia.
  - exact Hzero.
  - intros Hin. rewrite Hzero. now rewrite pointer_in_range.
Qed.

Lemma scm_malloc_on_full_store_witness :
  0 <= capacity (handle_at 8192) < 2 ^ SIZE_BITS /\
  utilized (handle_at 8192) = capacity (handle_at 8192) /\
  (0 < 1 < 2 ^ SIZE_BITS - capacity (handle_at 8192) ->
   scm_malloc (handle_at 8192) 1 = (None, handle_at 8192)) /\
  scm_malloc (handle_at 8192) 0 =
  (pointer (mem (handle_at 8192) + capacity (handle_at 8192)),
   handle_at 8192) /\
  (0 < mem (handle_at 8192) + capacity (handle_at 8192) < 2 ^ SIZE_BITS ->
   scm_malloc (handle_at 8192) 0 =
   (Some (mem (handle_at 8192) + capacity (handle_at 8192)), handle_at 8192)).
Proof.
  split; [split; [discriminate | reflexivity] |]. split; [reflexivity |].
  apply (scm_malloc_on_full_store (handle_at 8192) 1);
    [split; [discriminate | reflexivity] | reflexivity].
Defined.

(** ** [file_size], run forward *)

(** X6: on a regular file [file_size] stores the size rounded down to
    whole pages as capacity, touches nothing else, and its status is
    0 exactly when that capacity is 0: a store with at least one page
    is reported with -1. *)
Theorem file_size_status (e : env) (p : proc) (s : scm) :
  cell p = Some s ->
  is_open (fd s) p = true ->
  fstat_size_ok e = true ->
  f_regular (disk p) = true ->
  file_size e p =
  Done (if f_size (disk p) / page e * page e =? 0 then 0 else -1)
       (set_cell p (Some (set_capacity s (f_size (disk p) / page e * page e)))).
Proof.
  intros Hcell Hopen Hfstat Hreg.
  unfold file_size, bind, ret, get_cell, put_cell, sys_fstat.
  rewrite Hcell, Hfstat, Hopen. crunch. rewrite Hreg, Hcell. crunch.
  reflexivity.
Qed.

Lemma file_size_status_witness :
  cell (opening short_file) = Some (mkScm 3 0 0 0) /\
  is_open (fd (mkScm 3 0 0 0)) (opening short_file) = true /\
  fstat_size_ok env0 = true /\
  f_regular (disk (opening short_file)) = true /\
  file_size env0 (opening short_file) =
  Done (if f_size (disk (opening short_file)) / page env0 * page env0 =? 0
        then 0 else -1)
       (set_cell (opening short_file)
          (Some (set_capacity (mkScm 3 0 0 0)
                   (f_size (disk (opening short_file)) / page env0
                    * page env0)))).
Proof.
  repeat (split; [reflexivity |]).
  apply (file_size_status env0 (opening short_file) (mkScm 3 0 0 0));
    reflexivity.
Defined.

(** X7: when [file_size] fails it returns -1 with the handle already
    released.  After a failed [fstat] the descriptor is closed as
    well; on a file that is not regular the descriptor stays open.
    The file and the mapping are not touched. *)
Theorem file_size_failure (e : env) (p : proc) (s : scm) :
  cell p = Some s ->
  is_open (fd s) p = true ->
  (fstat_size_ok e = false ->
   file_size e p =
   Done (-1) (mkProc None (filter (fun x => negb (x =? fd s)) (fds p))
                     (mapping p) (disk p))) /\
  (fstat_size_ok e = true ->
   f_regular (disk p) = false ->
   file_size e p = Done (-1) (mkProc None (fds p) (mapping p) (disk p))).
Proof.
  intros Hcell Hopen. split.
  - intros Hfstat.
    unfold file_size, bind, ret, get_cell, sys_fstat, sys_close, sys_free.
    rewrite Hcell, Hfstat. crunch. rewrite Hopen. crunch.
    rewrite Hcell. reflexivity.
  - intros Hfstat Hreg.
    unfold file_size, bind, ret, get_cell, sys_fstat, FREE, sys_free.
    rewrite Hcell, Hfstat, Hopen. crunch. rewrite Hreg, Hcell. reflexivity.
Qed.

Lemma file_size_failure_witness :
  cell (opening device_file) = Some (mkScm 3 0 0 0) /\
  is_open (fd (mkScm 3 0 0 0)) (opening device_file) = true /\
  (fstat_size_ok env0 = false ->
   file_size env0 (opening device_file) =
   Done (-1) (mkProc None
                (filter (fun x => negb (x =? fd (mkScm 3 0 0 0)))
                        (fds (opening device_file)))
                (mapping (opening device_file)) (disk (opening device_file))))
  /\
  (fstat_size_ok env0 = true ->
   f_regular (disk (opening device_file)) = false ->
   file_size env0 (opening device_file) =
   Done (-1) (mkProc None (fds (opening device_file))
                (mapping (opening device_file)) (disk (opening device_file)))).
Proof.
  split; [reflexivity |]. split; [reflexivity |].
  apply (file_size_failure env0 (opening device_file) (mkScm 3 0 0 0));
    reflexivity.
Defined.

(** ** [init_zero] *)

Lemma filter_fresh (d : Z) (l : list Z) :
  existsb (Z.eqb d) l = false ->
  filter (fun x => negb (x =? d)) l = l.
Proof.
  induction l as [| x l IH]; cbn; [reflexivity |].
  intros H. apply orb_false_elim in H as [Hx Hl].
  rewrite Z.eqb_sym, Hx. cbn. now rewrite IH.
Qed.

(** [close] leaves the descriptor closed, whether it was open or not,
    and nothing else changes. *)
Lemma sys_close_Done (d : Z) (p q : proc) (r : Z) :
  sys_close d p = Done r q ->
  q = set_fds p (filter (fun x => negb (x =? d)) (fds p)).
Proof.
  unfold sys_close, is_open. destruct (existsb (Z.eqb d) (fds p)) eqn:Hopen;
    intros H; inversion H; subst; [reflexivity |].
  rewrite filter_fresh by exact Hopen. now destruct q.
Qed.

Lemma sys_write_Done (e : env) (k : nat) (d off len : Z) (p q : proc) (r : Z) :
  sys_write e k d off len p = Done r q ->
  (r = len /\ q = set_disk p (zero_range (disk p) off len)) \/
  (r = -1 /\ q = p).
Proof.
  unfold sys_write. destruct (is_open d p && negb (write_fails e k));
    intros H; inversion H; auto.
Qed.

(** Whatever way the loop of [init_zero] ends, the descriptor it wrote
    through is closed, the status is 0 or -1, and the file has not
    shrunk or changed kind. *)
Lemma zero_loop_Done (e : env) (fuel : nat) :
  forall (k : nat) (fdw bw nbytes : Z) (p q : proc) (r : Z),
    zero_loop e fuel k fdw bw nbytes p = Done r q ->
    fds q = filter (fun x => negb (x =? fdw)) (fds p) /\
    (r = 0 \/ r = -1) /\
    f_regular (disk q) = f_regular (disk p) /\
    f_size (disk p) <= f_size (disk q).
Proof.
  induction fuel as [| fuel IH]; intros k fdw bw nbytes p q r H;
    [discriminate |].
  cbn [zero_loop] in H. destruct (bw <? nbytes).
  - peel H w p1 Hw. apply sys_write_Done in Hw as [[-> ->] | [-> ->]].
    + cbn [Z.eqb Pos.eqb] in H. apply IH in H as (Hf & Hr & Hreg & Hsz).
      cbn in Hf, Hreg, Hsz. repeat split; auto. lia.
    + cbn [Z.eqb Pos.eqb] in H. peel H c p2 Hc.
      apply sys_close_Done in Hc as ->. apply ret_Done in H as [-> ->].
      cbn. repeat split; auto. lia.
  - peel H c p2 Hc. apply sys_close_Done in Hc as ->.
    apply ret_Done in H as [-> ->]. cbn. repeat split; auto. lia.
Qed.

(** X8: however [init_zero] returns (also when a [write] fails half
    way), its status is 0 or -1, its own descriptor is closed again so
    that the descriptor table is as before, the handle and the mapping
    are untouched, and the file has neither shrunk nor changed kind. *)
Theorem init_zero_leaves_no_descriptor (e : env) (nbytes : Z) (p q : proc)
        (r : Z) :
  is_open (open_wronly e) p = false ->
  init_zero e nbytes p = Done r q ->
  (r = 0 \/ r = -1) /\
  fds q = fds p /\
  cell q = cell p /\
  mapping q = mapping p /\
  f_regular (disk q) = f_regular (disk p) /\
  f_size (disk p) <= f_size (disk q).
Proof.
  intros Hfresh H.
  destruct (init_zero_untouched e nbytes p q r H) as [Hcell Hmap].
  unfold init_zero in H. peel H fdw p1 Ho.
  unfold sys_open in Ho. destruct (0 <=? open_wronly e) eqn:Hge.
  - inversion Ho; subst fdw p1; clear Ho.
    destruct (open_wronly e =? -1) eqn:Hm1.
    + apply Z.eqb_eq in Hm1. apply Z.leb_le in Hge. lia.
    + apply zero_loop_Done in H as (Hf & Hr & Hreg & Hsz).
      cbn in Hf, Hreg, Hsz. rewrite Z.eqb_refl in Hf. cbn in Hf.
      rewrite filter_fresh in Hf by exact Hfresh.
      repeat split; auto.
  - inversion Ho; subst fdw p1; clear Ho. cbn [Z.eqb Pos.eqb] in H.
    apply ret_Done in H as [-> ->]. repeat split; auto; lia.
Qed.

Lemma init_zero_leaves_no_descriptor_witness :
  exists q,
    is_open (open_wronly env_bad_write) (proc_of foreign_file) = false /\
    init_zero env_bad_write 8192 (proc_of foreign_file) = Done (-1) q /\
    (-1 = 0 \/ -1 = -1) /\
    fds q = fds (proc_of foreign_file) /\
    cell q = cell (proc_of foreign_file) /\
    mapping q = mapping (proc_of foreign_file) /\
    f_regular (disk q) = f_regular (disk (proc_of foreign_file)) /\
    f_size (disk (proc_of foreign_file)) <= f_size (disk q).
Proof.
  eexists. split; [reflexivity |]. split; [vm_compute; reflexivity |].
  eapply (init_zero_leaves_no_descriptor env_bad_write 8192
            (proc_of foreign_file)).
  - reflexivity.
  - vm_compute. reflexivity.
Defined.

Lemma fill_end_done (bw nbytes : Z) : nbytes <= bw -> fill_end bw nbytes = bw.
Proof. intros H. unfold fill_end. Z.div_mod_to_equations. lia. Qed.

Lemma fill_end_step (bw nbytes : Z) :
  bw < nbytes -> fill_end (bw + 4096) nbytes = fill_end bw nbytes.
Proof. intros H. unfold fill_end. Z.div_mod_to_equations. lia. Qed.

Lemma fill_end_bounds (bw nbytes : Z) :
  bw < nbytes ->
  bw + 4096 <= fill_end bw nbytes /\
  nbytes <= fill_end bw nbytes < nbytes + 4096.
Proof. intros H. unfold fill_end. Z.div_mod_to_equations. lia. Qed.

Lemma fill_end_from_start (nbytes : Z) :
  0 <= nbytes -> fill_end 0 nbytes = zero_fill_end nbytes.
Proof.
  intros H. unfold fill_end, zero_fill_end. rewrite Z.sub_0_r.
  Z.div_mod_to_equations. lia.
Qed.

(** The loop of [init_zero] when no [write] fails: it returns 0, the
    descriptor is closed, the bytes from [bw] to [fill_end bw nbytes]
    are zero and the others as before; the file grows to the end of
    the last buffer when that lies past its size. *)
Lemma zero_loop_run (e : env) (fuel : nat) :
  forall (k : nat) (fdw bw nbytes : Z) (p : proc),
    write_fail e = None ->
    is_open fdw p = true ->
    0 <= bw <= f_size (disk p) ->
    nbytes < 2 ^ 63 ->
    nbytes - bw <= 4096 * (Z.of_nat fuel - 1) ->
    (0 < fuel)%nat ->
    exists q,
      zero_loop e fuel k fdw bw nbytes p = Done 0 q /\
      cell q = cell p /\ mapping q = mapping p /\
      fds q = filter (fun x => negb (x =? fdw)) (fds p) /\
      f_regular (disk q) = f_regular (disk p) /\
      f_size (disk q) = Z.max (f_size (disk p)) (fill_end bw nbytes) /\
      (forall o, bw <= o < fill_end bw nbytes -> f_data (disk q) o = zero) /\
      (forall o, o < bw \/ fill_end bw nbytes <= o ->
                 f_data (disk q) o = f_data (disk p) o) /\
      (0 < bw -> f_meta (disk q) = f_meta (disk p)) /\
      (bw = 0 -> 0 < nbytes -> f_meta (disk q) = mkMeta 0 0 0).
Proof.
  induction fuel as [| fuel IH];
    intros k fdw bw nbytes p Hnofail Hopen Hbw Hn Hfuel Hpos; [lia |].
  cbn [zero_loop]. destruct (bw <? nbytes) eqn:Hlt.
  - apply Z.ltb_lt in Hlt.
    assert (Hw : sys_write e k fdw bw 4096 p =
                 Done 4096 (set_disk p (zero_range (disk p) bw 4096))).
    { unfold sys_write, write_fails. now rewrite Hopen, Hnofail. }
    rewrite (bind_step _ _ _ _ _ Hw). cbn [Z.eqb Pos.eqb].
    rewrite wrap_small by (unfold SIZE_BITS; lia).
    set (p1 := set_disk p (zero_range (disk p) bw 4096)).
    destruct (IH (S k) fdw (bw + 4096) nbytes p1 Hnofail Hopen)
      as (q & Hrun & Hcell & Hmap & Hfds & Hreg & Hsize & Hzero & Hkeep
          & Hmeta & _); try lia.
    { cbn. lia. }
    rewrite fill_end_step in * by exact Hlt.
    destruct (fill_end_bounds bw nbytes Hlt) as [Hge _].
    exists q. split; [exact Hrun |].
    repeat split; auto.
    + rewrite Hsize. cbn. lia.
    + intros o Ho. destruct (Z.lt_ge_cases o (bw + 4096)) as [Hin | Hout].
      * rewrite Hkeep by lia. cbn.
        destruct (bw <=? o) eqn:H1; [| lia].
        destruct (o <? bw + 4096) eqn:H2; [reflexivity | lia].
      * apply Hzero. lia.
    + intros o Ho. rewrite Hkeep by lia. cbn.
      destruct (bw <=? o) eqn:H1; [| reflexivity].
      destruct (o <? bw + 4096) eqn:H2; [lia | reflexivity].
    + intros Hbw0. rewrite Hmeta by lia. cbn.
      destruct (bw <=? 0) eqn:H1; [lia | reflexivity].
    + intros -> _. rewrite Hmeta by lia. reflexivity.
  - apply Z.ltb_ge in Hlt. rewrite fill_end_done by exact Hlt.
    unfold bind, sys_close, ret. rewrite Hopen.
    eexists. split; [reflexivity |]. cbn.
    repeat split; auto; try lia.
Qed.

(** [init_zero] when its [open] and every [write] succeed. *)
Lemma init_zero_run (e : env) (nbytes : Z) (p : proc) :
  write_fail e = None ->
  0 <= open_wronly e ->
  is_open (open_wronly e) p = false ->
  0 <= nbytes < 2 ^ 63 ->
  0 <= f_size (disk p) ->
  exists q,
    init_zero e nbytes p = Done 0 q /\
    cell q = cell p /\ mapping q = mapping p /\ fds q = fds p /\
    f_regular (disk q) = f_regular (disk p) /\
    f_size (disk q) = Z.max (f_size (disk p)) (zero_fill_end nbytes) /\
    (forall o, 0 <= o < zero_fill_end nbytes -> f_data (disk q) o = zero) /\
    (forall o, o < 0 \/ zero_fill_end nbytes <= o ->
               f_data (disk q) o = f_data (disk p) o) /\
    (0 < nbytes -> f_meta (disk q) = mkMeta 0 0 0) /\
    (nbytes = 0 -> disk q = disk p).
Proof.
  intros Hnofail Hfd Hfresh Hn Hsz.
  unfold init_zero, bind at 1, sys_open.
  destruct (0 <=? open_wronly e) eqn:Hge; [| lia].
  destruct (open_wronly e =? -1) eqn:Hm1; [lia |].
  set (p1 := set_fds p (open_wronly e :: fds p)).
  destruct (zero_loop_run e (Z.to_nat (nbytes / 4096) + 2) 0
              (open_wronly e) 0 nbytes p1 Hnofail)
    as (q & Hrun & Hcell & Hmap & Hfds & Hreg & Hsize & Hzero & Hkeep
        & _ & Hmeta); try lia.
  - unfold is_open. cbn. now rewrite Z.eqb_refl.
  - cbn. lia.
  - rewrite Nat2Z.inj_add, Z2Nat.id by (apply Z.div_pos; lia).
    Z.div_mod_to_equations. lia.
  - rewrite fill_end_from_start in * by lia.
    exists q. split; [exact Hrun |].
    cbn in Hfds. rewrite Z.eqb_refl in Hfds. cbn in Hfds.
    rewrite filter_fresh in Hfds by exact Hfresh.
    repeat split; auto.
    intros ->. clear Hmeta.
    assert (Hend : zero_fill_end 0 = 0) by reflexivity.
    rewrite Hend in *.
    revert Hrun. cbn. unfold bind, sys_close, ret, is_open. cbn.
    rewrite Z.eqb_refl. cbn. intros Hrun. now inversion Hrun.
Qed.

(** X9: called with the size of the file, as [scm_open] does, and with
    its [open] and every [write] granted, [init_zero] returns 0 and
    leaves a file of zero bytes only, header included, whose length is
    the old one rounded up to a multiple of 4096: a file that does not
    end on a 4096-byte boundary grows. *)
Theorem init_zero_fills_whole_file (e : env) (p : proc) :
  write_fail e = None ->
  0 <= open_wronly e ->
  is_open (open_wronly e) p = false ->
  0 <= f_size (disk p) < 2 ^ 63 ->
  exists q,
    init_zero e (f_size (disk p)) p = Done 0 q /\
    fds q = fds p /\
    f_size (disk q) = zero_fill_end (f_size (disk p)) /\
    f_size (disk p) <= f_size (disk q) < f_size (disk p) + 4096 /\
    (forall o, 0 <= o < f_size (disk q) -> f_data (disk q) o = zero) /\
    (0 < f_size (disk p) -> f_meta (disk q) = mkMeta 0 0 0).
Proof.
  intros Hnofail Hfd Hfresh Hsz.
  destruct (init_zero_run e (f_size (disk p)) p Hnofail Hfd Hfresh Hsz)
    as (q & Hrun & _ & _ & Hfds & _ & Hsize & Hzero & _ & Hmeta & _);
    [lia |].
  assert (Hend : f_size (disk p) <= zero_fill_end (f_size (disk p))
                 < f_size (disk p) + 4096)
    by (unfold zero_fill_end; Z.div_mod_to_equations; lia).
  exists q. rewrite Hsize, Z.max_r by lia.
  repeat split; auto; lia.
Qed.

Lemma init_zero_fills_whole_file_witness :
  write_fail env0 = None /\
  0 <= open_wronly env0 /\
  is_open (open_wronly env0) (proc_of short_file) = false /\
  0 <= f_size (disk (proc_of short_file)) < 2 ^ 63 /\
  exists q,
    init_zero env0 (f_size (disk (proc_of short_file))) (proc_of short_file)
    = Done 0 q /\
    fds q = fds (proc_of short_file) /\
    f_size (disk q) = zero_fill_end (f_size (disk (proc_of short_file))) /\
    f_size (disk (proc_of short_file)) <= f_size (disk q)
      < f_size (disk (proc_of short_file)) + 4096 /\
    (forall o, 0 <= o < f_size (disk q) -> f_data (disk q) o = zero) /\
    (0 < f_size (disk (proc_of short_file)) ->
     f_meta (disk q) = mkMeta 0 0 0).
Proof.
  split; [reflexivity |]. split; [discriminate |]. split; [reflexivity |].
  split; [split; [discriminate | reflexivity] |].
  apply (init_zero_fills_whole_file env0 (proc_of short_file));
    [reflexivity | discriminate | reflexivity
     | split; [discriminate | reflexivity]].
Defined.

(** ** [scm_open], run forward *)

(** The calls of [scm_open] and of what it calls, opened up for
    forward evaluation. *)
Ltac open_up e :=
  unfold scm_open, file_size, run_load_metadata, run_initialize_metadata;
  fold (vm_addr_of e);
  unfold bind, ret, sys_malloc, memset_zero, put_cell, get_cell, sys_open,
    sys_fstat, sys_mmap, sys_close, read_meta, write_meta, FREE, sys_free,
    is_open, header_at.

(** X10: when [malloc] or the [open] of the path fails, [scm_open]
    returns NULL and leaves descriptors, mapping and file as they
    were; after a failed [open] the handle is released again. *)
Theorem scm_open_refused_early (e : env) (truncate : bool) (p : proc) :
  malloc_ok e = false \/ open_rdwr e < 0 ->
  exists q,
    scm_open e truncate p = Done None q /\
    fds q = fds p /\ mapping q = mapping p /\ disk q = disk p /\
    (malloc_ok e = false -> q = p) /\
    (malloc_ok e = true -> cell q = None).
Proof.
  intros H. open_up e. destruct (malloc_ok e) eqn:Hmalloc; crunch.
  - destruct H as [H | H]; [discriminate |].
    destruct (0 <=? open_rdwr e) eqn:Hge; [lia |]. crunch.
    eexists. split; [reflexivity |]. cbn. repeat split; auto. discriminate.
  - exists p. repeat split; auto. discriminate.
Qed.

Lemma scm_open_refused_early_witness :
  (malloc_ok env_no_path = false \/ open_rdwr env_no_path < 0) /\
  exists q,
    scm_open env_no_path false (proc_of stored_file) = Done None q /\
    fds q = fds (proc_of stored_file) /\
    mapping q = mapping (proc_of stored_file) /\
    disk q = disk (proc_of stored_file) /\
    (malloc_ok env_no_path = false -> q = proc_of stored_file) /\
    (malloc_ok env_no_path = true -> cell q = None).
Proof.
  split; [right; reflexivity |].
  apply (scm_open_refused_early env_no_path false (proc_of stored_file)).
  right. reflexivity.
Defined.

(** X11: when the [fstat] inside [file_size] fails, [file_size] closes
    the descriptor and releases the handle, and [scm_open], which
    drops the status, goes on with the released handle: the open has
    no defined behaviour, in either mode. *)
Theorem scm_open_fstat_failure_undefined (e : env) (truncate : bool)
        (p : proc) :
  malloc_ok e = true ->
  0 <= open_rdwr e ->
  fstat_size_ok e = false ->
  scm_open e truncate p = Undefined.
Proof.
  intros Hmalloc Hfd Hfstat.
  assert (Hge : (0 <=? open_rdwr e) = true) by now apply Z.leb_le.
  assert (Hlt : (open_rdwr e <? 0) = false) by now apply Z.ltb_ge.
  unfold truncate_fails. open_up e.
  rewrite Hmalloc, Hge. crunch. rewrite Hlt. crunch.
  rewrite Hfstat. crunch. rewrite Z.eqb_refl. crunch.
  destruct (vm_addr_of e <? brk e); crunch; [reflexivity |].
  destruct truncate; reflexivity.
Qed.

Lemma scm_open_fstat_failure_undefined_witness :
  malloc_ok env_no_fstat = true /\
  0 <= open_rdwr env_no_fstat /\
  fstat_size_ok env_no_fstat = false /\
  scm_open env_no_fstat false (proc_of stored_file) = Undefined.
Proof.
  split; [reflexivity |]. split; [discriminate |]. split; [reflexivity |].
  apply (scm_open_fstat_failure_undefined env_no_fstat false
           (proc_of stored_file)); [reflexivity | discriminate | reflexivity].
Defined.

(** A reopen that every system call grants, on a regular file that
    holds a header: the handle is the one [load_metadata] leaves,
    whether it accepts the header or not; the file is not written. *)
Lemma scm_open_reopen_run (e : env) (p : proc) :
  malloc_ok e = true ->
  0 <= open_rdwr e ->
  fstat_size_ok e = true ->
  mmap_ok e = true ->
  brk e <= vm_addr_of e < MAP_FAILED ->
  f_regular (disk p) = true ->
  META_SIZE <= f_size (disk p) / page e * page e ->
  scm_open e false p =
  Done (Some (set_mem
                (snd (load_metadata
                        (mkScm (open_rdwr e) (vm_addr_of e) 0
                               (f_size (disk p) / page e * page e))
                        (f_meta (disk p))))
                (vm_addr_of e + META_SIZE)))
       (mkProc (Some (set_mem
                        (snd (load_metadata
                                (mkScm (open_rdwr e) (vm_addr_of e) 0
                                       (f_size (disk p) / page e * page e))
                                (f_meta (disk p))))
                        (vm_addr_of e + META_SIZE)))
               (open_rdwr e :: fds p)
               (Some (vm_addr_of e, f_size (disk p) / page e * page e))
               (disk p)).
Proof.
  intros Hmalloc Hfd Hfstat Hmmap Hbrk Hreg Hcap.
  assert (Hge : (0 <=? open_rdwr e) = true) by now apply Z.leb_le.
  assert (Hlt : (open_rdwr e <? 0) = false) by now apply Z.ltb_ge.
  assert (Hvm : (vm_addr_of e <? brk e) = false) by (apply Z.ltb_ge; lia).
  assert (Hmf : (vm_addr_of e =? MAP_FAILED) = false) by (apply Z.eqb_neq; lia).
  assert (Hnz : (f_size (disk p) / page e * page e =? 0) = false)
    by (apply Z.eqb_neq; unfold META_SIZE in Hcap; lia).
  assert (Hhd : (META_SIZE <=? f_size (disk p) / page e * page e) = true)
    by now apply Z.leb_le.
  open_up e.
  rewrite Hmalloc, Hge. crunch.
  rewrite Hlt. crunch. rewrite Z.eqb_refl, Hfstat. crunch.
  rewrite Hreg. crunch. rewrite Hvm. crunch. rewrite Hnz. crunch.
  rewrite Z.eqb_refl, Hmmap. crunch.
  rewrite Hmf. crunch. rewrite Z.eqb_refl, Hhd. crunch.
  unfold load_metadata.
  destruct (negb (signature (f_meta (disk p)) =? SCM_SIGNATURE));
    [| destruct (negb (checksum (f_meta (disk p)) =?
                       calculate_checksum (f_meta (disk p))))];
    crunch; reflexivity.
Qed.

(** The truncate branch when [fstat], the second [open] and every
    [write] succeed: the condition is false and the file is zero
    throughout. *)
Lemma truncate_fails_run (e : env) (p : proc) (s : scm) :
  cell p = Some s ->
  is_open (fd s) p = true ->
  fstat_trunc_ok e = true ->
  write_fail e = None ->
  0 <= open_wronly e ->
  is_open (open_wronly e) p = false ->
  0 <= f_size (disk p) < 2 ^ 63 ->
  exists q,
    truncate_fails e p = Done false q /\
    cell q = cell p /\ mapping q = mapping p /\ fds q = fds p /\
    f_regular (disk q) = f_regular (disk p) /\
    f_size (disk p) <= f_size (disk q) /\
    (forall o, 0 <= o < f_size (disk p) -> f_data (disk q) o = zero) /\
    (0 < f_size (disk p) -> f_meta (disk q) = mkMeta 0 0 0).
Proof.
  intros Hcell Hopen Hfstat Hnofail Hfd Hfresh Hsz.
  destruct (init_zero_run e (f_size (disk p)) p Hnofail Hfd Hfresh Hsz)
    as (q & Hrun & Hc & Hm & Hfds & Hreg & Hsize & Hzero & _ & Hmeta & _);
    [lia |].
  assert (Hend : f_size (disk p) <= zero_fill_end (f_size (disk p)))
    by (unfold zero_fill_end; Z.div_mod_to_equations; lia).
  exists q.
  unfold truncate_fails, bind, get_cell, sys_fstat, ret.
  rewrite Hcell, Hfstat, Hopen. cbn [andb]. rewrite Hrun.
  repeat split; auto; try lia; try congruence.
  intros o Ho. apply Hzero. lia.
Qed.

(** X12: a fresh store.  With every call granted, [scm_open] in
    truncate mode on a regular file of at least one header returns a
    handle with [utilized = 0], the page-aligned size as capacity and
    [mem] just past the header; the header in the file is the
    initialised one, every byte of the old file content after the
    header is zero, and exactly the descriptor of the store has been
    added. *)
Theorem scm_open_fresh_store (e : env) (p : proc) :
  malloc_ok e = true ->
  0 <= open_rdwr e ->
  fstat_size_ok e = true ->
  fstat_trunc_ok e = true ->
  write_fail e = None ->
  0 <= open_wronly e ->
  open_wronly e <> open_rdwr e ->
  is_open (open_wronly e) p = false ->
  mmap_ok e = true ->
  brk e <= vm_addr_of e < MAP_FAILED ->
  f_regular (disk p) = true ->
  0 <= f_size (disk p) < 2 ^ 63 ->
  META_SIZE <= f_size (disk p) / page e * page e ->
  exists q,
    scm_open e true p =
    Done (Some (mkScm (open_rdwr e) (vm_addr_of e + META_SIZE) 0
                      (f_size (disk p) / page e * page e))) q /\
    cell q = Some (mkScm (open_rdwr e) (vm_addr_of e + META_SIZE) 0
                         (f_size (disk p) / page e * page e)) /\
    mapping q = Some (vm_addr_of e, f_size (disk p) / page e * page e) /\
    fds q = open_rdwr e :: fds p /\
    f_meta (disk q) = mkMeta 0 SCM_SIGNATURE SCM_SIGNATURE /\
    (forall o, META_SIZE <= o < f_size (disk p) -> f_data (disk q) o = zero).
Proof.
  intros Hmalloc Hfd Hfstat Hfstat2 Hnofail Hfdw Hdiff Hfresh Hmmap Hbrk Hreg
         Hsz Hcap.
  assert (Hge : (0 <=? open_rdwr e) = true) by now apply Z.leb_le.
  assert (Hlt : (open_rdwr e <? 0) = false) by now apply Z.ltb_ge.
  assert (Hvm : (vm_addr_of e <? brk e) = false) by (apply Z.ltb_ge; lia).
  assert (Hmf : (vm_addr_of e =? MAP_FAILED) = false) by (apply Z.eqb_neq; lia).
  assert (Hnz : (f_size (disk p) / page e * page e =? 0) = false)
    by (apply Z.eqb_neq; unfold META_SIZE in Hcap; lia).
  assert (Hhd : (META_SIZE <=? f_size (disk p) / page e * page e) = true)
    by now apply Z.leb_le.
  open_up e.
  rewrite Hmalloc, Hge. crunch.
  rewrite Hlt. crunch. rewrite Z.eqb_refl, Hfstat. crunch.
  rewrite Hreg. crunch. rewrite Hvm. crunch.
  match goal with
  | |- context [truncate_fails e ?st] =>
      destruct (truncate_fails_run e st _ eq_refl)
        as (q1 & Hrun & Hc1 & Hm1 & Hf1 & _ & _ & Hzero & _);
        [ unfold is_open; cbn; now rewrite Z.eqb_refl
        | exact Hfstat2 | exact Hnofail | exact Hfdw
        | unfold is_open in *; cbn;
          apply Z.eqb_neq in Hdiff; now rewrite Hdiff, Hfresh
        | exact Hsz | ]
  end.
  rewrite Hrun. destruct q1 as [c1 f1 m1 d1]. cbn in Hc1, Hm1, Hf1, Hzero.
  subst c1 f1 m1. crunch.
  rewrite Hnz. crunch. rewrite Z.eqb_refl, Hmmap. crunch.
  rewrite Hmf. crunch. rewrite Z.eqb_refl, Hhd. crunch.
  rewrite Z.eqb_refl, Hhd. crunch.
  eexists. split; [reflexivity |]. cbn [cell mapping fds disk f_meta f_data].
  repeat split; auto.
  intros o Ho. apply Hzero. unfold META_SIZE in Ho. lia.
Qed.

Lemma scm_open_fresh_store_witness :
  malloc_ok env0 = true /\
  0 <= open_rdwr env0 /\
  fstat_size_ok env0 = true /\
  fstat_trunc_ok env0 = true /\
  write_fail env0 = None /\
  0 <= open_wronly env0 /\
  open_wronly env0 <> open_rdwr env0 /\
  is_open (open_wronly env0) (proc_of foreign_file) = false /\
  mmap_ok env0 = true /\
  brk env0 <= vm_addr_of env0 < MAP_FAILED /\
  f_regular (disk (proc_of foreign_file)) = true /\
  0 <= f_size (disk (proc_of foreign_file)) < 2 ^ 63 /\
  META_SIZE <= f_size (disk (proc_of foreign_file)) / page env0 * page env0 /\
  exists q,
    scm_open env0 true (proc_of foreign_file) =
    Done (Some (mkScm (open_rdwr env0) (vm_addr_of env0 + META_SIZE) 0
                      (f_size (disk (proc_of foreign_file)) / page env0
                       * page env0))) q /\
    cell q = Some (mkScm (open_rdwr env0) (vm_addr_of env0 + META_SIZE) 0
                         (f_size (disk (proc_of foreign_file)) / page env0
                          * page env0)) /\
    mapping q = Some (vm_addr_of env0,
                      f_size (disk (proc_of foreign_file)) / page env0
                      * page env0) /\
    fds q = open_rdwr env0 :: fds (proc_of foreign_file) /\
    f_meta (disk q) = mkMeta 0 SCM_SIGNATURE SCM_SIGNATURE /\
    (forall o, META_SIZE <= o < f_size (disk (proc_of foreign_file)) ->
               f_data (disk q) o = zero).
Proof.
  assert (Hdiff : open_wronly env0 <> open_rdwr env0) by discriminate.
  assert (Hbrk : brk env0 <= vm_addr_of env0 < MAP_FAILED)
    by (split; [discriminate | reflexivity]).
  assert (Hsz : 0 <= f_size (disk (proc_of foreign_file)) < 2 ^ 63)
    by (split; [discriminate | reflexivity]).
  assert (Hcap : META_SIZE <= f_size (disk (proc_of foreign_file))
                              / page env0 * page env0) by discriminate.
  repeat (split; [first [reflexivity | discriminate | assumption] |]).
  apply (scm_open_fresh_store env0 (proc_of foreign_file));
    first [reflexivity | discriminate | assumption].
Defined.

(** X13: when the truncate branch fails before anything is written
    (its [fstat] fails, or [init_zero] cannot open the path for
    writing), [scm_open] returns NULL with the descriptor closed and
    the handle released: descriptors, mapping and file are as
    before. *)
Theorem scm_open_truncate_refused (e : env) (p : proc) :
  malloc_ok e = true ->
  0 <= open_rdwr e ->
  is_open (open_rdwr e) p = false ->
  fstat_size_ok e = true ->
  f_regular (disk p) = true ->
  brk e <= vm_addr_of e ->
  fstat_trunc_ok e = false \/ open_wronly e < 0 ->
  exists q,
    scm_open e true p = Done None q /\
    cell q = None /\ fds q = fds p /\
    mapping q = mapping p /\ disk q = disk p.
Proof.
  intros Hmalloc Hfd Hfresh Hfstat Hreg Hbrk Hcause.
  assert (Hge : (0 <=? open_rdwr e) = true) by now apply Z.leb_le.
  assert (Hlt : (open_rdwr e <? 0) = false) by now apply Z.ltb_ge.
  assert (Hvm : (vm_addr_of e <? brk e) = false) by (apply Z.ltb_ge; lia).
  open_up e.
  rewrite Hmalloc, Hge. crunch.
  rewrite Hlt. crunch. rewrite Z.eqb_refl, Hfstat. crunch.
  rewrite Hreg. crunch. rewrite Hvm. crunch.
  unfold truncate_fails, init_zero, bind, ret, get_cell, sys_fstat, sys_open,
    is_open.
  crunch. rewrite Z.eqb_refl. crunch.
  unfold is_open in Hfresh.
  destruct (fstat_trunc_ok e) eqn:Hfstat2; crunch.
  - destruct Hcause as [Hcause | Hcause]; [discriminate |].
    destruct (0 <=? open_wronly e) eqn:Hgw; [lia |]. crunch.
    cbn [Z.eqb Pos.eqb]. crunch. rewrite Z.eqb_refl. crunch.
    cbn [filter]. rewrite Z.eqb_refl. cbn [negb].
    rewrite filter_fresh by exact Hfresh.
    eexists. split; [reflexivity |]. cbn. auto.
  - rewrite Z.eqb_refl. crunch.
    cbn [filter]. rewrite Z.eqb_refl. cbn [negb].
    rewrite filter_fresh by exact Hfresh.
    eexists. split; [reflexivity |]. cbn. auto.
Qed.

Lemma scm_open_truncate_refused_witness :
  malloc_ok env_no_wronly = true /\
  0 <= open_rdwr env_no_wronly /\
  is_open (open_rdwr env_no_wronly) (proc_of stored_file) = false /\
  fstat_size_ok env_no_wronly = true /\
  f_regular (disk (proc_of stored_file)) = true /\
  brk env_no_wronly <= vm_addr_of env_no_wronly /\
  (fstat_trunc_ok env_no_wronly = false \/ open_wronly env_no_wronly < 0) /\
  exists q,
    scm_open env_no_wronly true (proc_of stored_file) = Done None q /\
    cell q = None /\ fds q = fds (proc_of stored_file) /\
    mapping q = mapping (proc_of stored_file) /\
    disk q = disk (proc_of stored_file).
Proof.
  assert (Hcause : fstat_trunc_ok env_no_wronly = false \/
                   open_wronly env_no_wronly < 0) by (right; reflexivity).
  repeat (split; [first [reflexivity | discriminate | assumption] |]).
  apply (scm_open_truncate_refused env_no_wronly (proc_of stored_file));
    first [reflexivity | discriminate | assumption].
Defined.

(** X14: a truncating open wipes the file before it maps it.  When
    the zero-fill succeeds and [mmap] then fails (refused by the
    kernel, or the file is shorter than a page), [scm_open] returns
    NULL, and every byte of the old content and the header are zero
    all the same; the descriptor of the store is left open. *)
Theorem scm_open_truncate_wipes_before_mmap (e : env) (p : proc) :
  malloc_ok e = true ->
  0 <= open_rdwr e ->
  fstat_size_ok e = true ->
  fstat_trunc_ok e = true ->
  write_fail e = None ->
  0 <= open_wronly e ->
  open_wronly e <> open_rdwr e ->
  is_open (open_wronly e) p = false ->
  brk e <= vm_addr_of e ->
  f_regular (disk p) = true ->
  0 <= f_size (disk p) < 2 ^ 63 ->
  mmap_ok e = false \/ f_size (disk p) / page e * page e = 0 ->
  exists q,
    scm_open e true p = Done None q /\
    cell q = None /\
    fds q = open_rdwr e :: fds p /\
    (forall o, 0 <= o < f_size (disk p) -> f_data (disk q) o = zero) /\
    (0 < f_size (disk p) -> f_meta (disk q) = mkMeta 0 0 0).
Proof.
  intros Hmalloc Hfd Hfstat Hfstat2 Hnofail Hfdw Hdiff Hfresh Hbrk Hreg
         Hsz Hcause.
  assert (Hge : (0 <=? open_rdwr e) = true) by now apply Z.leb_le.
  assert (Hlt : (open_rdwr e <? 0) = false) by now apply Z.ltb_ge.
  assert (Hvm : (vm_addr_of e <? brk e) = false) by (apply Z.ltb_ge; lia).
  open_up e.
  rewrite Hmalloc, Hge. crunch.
  rewrite Hlt. crunch. rewrite Z.eqb_refl, Hfstat. crunch.
  rewrite Hreg. crunch. rewrite Hvm. crunch.
  match goal with
  | |- context [truncate_fails e ?st] =>
      destruct (truncate_fails_run e st _ eq_refl)
        as (q1 & Hrun & Hc1 & Hm1 & Hf1 & _ & _ & Hzero & Hmeta);
        [ unfold is_open; cbn; now rewrite Z.eqb_refl
        | exact Hfstat2 | exact Hnofail | exact Hfdw
        | unfold is_open in *; cbn;
          apply Z.eqb_neq in Hdiff; now rewrite Hdiff, Hfresh
        | exact Hsz | ]
  end.
  rewrite Hrun. destruct q1 as [c1 f1 m1 d1].
  cbn in Hc1, Hm1, Hf1, Hzero, Hmeta. subst c1 f1 m1. crunch.
  rewrite Z.eqb_refl. crunch. rewrite andb_true_r.
  assert (Hmm : negb (f_size (disk p) / page e * page e =? 0) && mmap_ok e
                = false).
  { destruct Hcause as [-> | ->]; [apply andb_false_r | reflexivity]. }
  rewrite Hmm. crunch.
  assert (Hmf : (MAP_FAILED =? MAP_FAILED) = true) by reflexivity.
  rewrite Hmf. crunch.
  eexists. split; [reflexivity |]. cbn. repeat split; auto.
Qed.

Lemma scm_open_truncate_wipes_before_mmap_witness :
  malloc_ok env0 = true /\
  0 <= open_rdwr env0 /\
  fstat_size_ok env0 = true /\
  fstat_trunc_ok env0 = true /\
  write_fail env0 = None /\
  0 <= open_wronly env0 /\
  open_wronly env0 <> open_rdwr env0 /\
  is_open (open_wronly env0) (proc_of short_file) = false /\
  brk env0 <= vm_addr_of env0 /\
  f_regular (disk (proc_of short_file)) = true /\
  0 <= f_size (disk (proc_of short_file)) < 2 ^ 63 /\
  (mmap_ok env0 = false \/
   f_size (disk (proc_of short_file)) / page env0 * page env0 = 0) /\
  exists q,
    scm_open env0 true (proc_of short_file) = Done None q /\
    cell q = None /\
    fds q = open_rdwr env0 :: fds (proc_of short_file) /\
    (forall o, 0 <= o < f_size (disk (proc_of short_file)) ->
               f_data (disk q) o = zero) /\
    (0 < f_size (disk (proc_of short_file)) ->
     f_meta (disk q) = mkMeta 0 0 0).
Proof.
  assert (Hdiff : open_wronly env0 <> open_rdwr env0) by discriminate.
  assert (Hsz : 0 <= f_size (disk (proc_of short_file)) < 2 ^ 63)
    by (split; [discriminate | reflexivity]).
  assert (Hcause : mmap_ok env0 = false \/
                   f_size (disk (proc_of short_file)) / page env0
                   * page env0 = 0) by (right; reflexivity).
  repeat (split; [first [reflexivity | discriminate | assumption] |]).
  apply (scm_open_truncate_wipes_before_mmap env0 (proc_of short_file));
    first [reflexivity | discriminate | assumption].
Defined.

(** ** [scm_close], and how open and close compose *)

Lemma is_open_after_close (d d' : Z) (l : list Z) :
  existsb (Z.eqb d) (filter (fun x => negb (x =? d')) l) =
  if d =? d' then false else existsb (Z.eqb d) l.
Proof.
  induction l as [| x l IH]; cbn; [now destruct (d =? d') |].
  destruct (x =? d') eqn:Hx; cbn.
  - rewrite IH. apply Z.eqb_eq in Hx. subst x.
    destruct (d =? d'); reflexivity.
  - rewrite IH. destruct (d =? d') eqn:Hd; [| reflexivity].
    apply Z.eqb_eq in Hd. subst d'. now rewrite Z.eqb_sym, Hx.
Qed.

(** The whole state that [scm_close] leaves on a handle whose [mem]
    lies one header past a mapping of the store. *)
Lemma scm_close_state (e : env) (p : proc) (h : scm) (a len : Z) :
  cell p = Some h ->
  mapping p = Some (a, len) ->
  mem h = a + META_SIZE ->
  META_SIZE <= len ->
  scm_close e p =
  Done tt
    (mkProc None
       (if fd h =? 0 then fds p
        else filter (fun x => negb (x =? fd h)) (fds p))
       (if negb (a =? 0) && negb (a =? MAP_FAILED) && munmap_ok e
        then None else Some (a, len))
       (set_f_meta (disk p) (store_metadata h (f_meta (disk p))))).
Proof.
  intros Hcell Hmap Hmem Hlen.
  assert (Hhd : (META_SIZE <=? len) = true) by now apply Z.leb_le.
  unfold scm_close, run_store_metadata.
  unfold bind, ret, put_cell, get_cell, read_meta, write_meta, sys_free,
    sys_msync, sys_munmap, sys_close, header_at, is_open.
  rewrite Hcell. crunch. rewrite Hmap.
  replace (mem h - META_SIZE) with a by lia.
  rewrite Z.eqb_refl, Hhd. crunch. rewrite Z.eqb_refl, Hhd. crunch.
  destruct (negb (a =? 0) && negb (a =? MAP_FAILED)); crunch.
  - rewrite Z.eqb_refl. crunch.
    destruct (munmap_ok e); crunch;
      destruct (fd h =? 0); crunch; try reflexivity;
        destruct (existsb (Z.eqb (fd h)) (fds p)) eqn:Hopen; crunch;
          try reflexivity; now rewrite filter_fresh by exact Hopen.
  - destruct (fd h =? 0); crunch; try reflexivity;
      destruct (existsb (Z.eqb (fd h)) (fds p)) eqn:Hopen; crunch;
        try reflexivity; now rewrite filter_fresh by exact Hopen.
Qed.

(** X15: [scm_close] on an open store releases the handle and the
    mapping, and closes the descriptor of the store without touching
    any other descriptor; but a store whose descriptor is 0 keeps it
    open, because the close is guarded by [if (scm->fd)]. *)
Theorem scm_close_releases (e : env) (p : proc) (h : scm) (a len : Z) :
  cell p = Some h ->
  mapping p = Some (a, len) ->
  mem h = a + META_SIZE ->
  META_SIZE <= len ->
  0 < a < MAP_FAILED ->
  munmap_ok e = true ->
  exists q,
    scm_close e p = Done tt q /\
    cell q = None /\
    mapping q = None /\
    (fd h <> 0 ->
     is_open (fd h) q = false /\
     forall d, d <> fd h -> is_open d q = is_open d p) /\
    (fd h = 0 -> fds q = fds p).
Proof.
  intros Hcell Hmap Hmem Hlen Ha Hmunmap.
  rewrite (scm_close_state e p h a len Hcell Hmap Hmem Hlen).
  eexists. split; [reflexivity |]. cbn [cell mapping fds].
  assert (H0 : (a =? 0) = false) by (apply Z.eqb_neq; lia).
  assert (H1 : (a =? MAP_FAILED) = false) by (apply Z.eqb_neq; lia).
  rewrite H0, H1, Hmunmap. cbn [negb andb].
  repeat split; auto.
  - apply Z.eqb_neq in H. unfold is_open. cbn [fds]. rewrite H.
    now rewrite is_open_after_close, Z.eqb_refl.
  - intros d Hd. apply Z.eqb_neq in H, Hd. unfold is_open. cbn [fds].
    now rewrite H, is_open_after_close, Hd.
  - intros ->. reflexivity.
Qed.

Lemma scm_close_releases_witness :
  cell (open_store 6) = Some (handle_at 6) /\
  mapping (open_store 6) = Some (vm_base, 8192) /\
  mem (handle_at 6) = vm_base + META_SIZE /\
  META_SIZE <= 8192 /\
  0 < vm_base < MAP_FAILED /\
  munmap_ok env0 = true /\
  exists q,
    scm_close env0 (open_store 6) = Done tt q /\
    cell q = None /\
    mapping q = None /\
    (fd (handle_at 6) <> 0 ->
     is_open (fd (handle_at 6)) q = false /\
     forall d, d <> fd (handle_at 6) ->
               is_open d q = is_open d (open_store 6)) /\
    (fd (handle_at 6) = 0 -> fds q = fds (open_store 6)).
Proof.
  assert (Ha : 0 < vm_base < MAP_FAILED) by (split; reflexivity).
  assert (Hlen : META_SIZE <= 8192) by discriminate.
  repeat (split; [first [reflexivity | assumption] |]).
  apply (scm_close_releases env0 (open_store 6) (handle_at 6) vm_base 8192);
    first [reflexivity | assumption].
Defined.

(** A reopen followed at once by a close, every call granted: all
    resources are back, and the file differs only in the header,
    which is the one [store_metadata] computes from what
    [load_metadata] left in the handle. *)
Lemma reopen_close_run (e : env) (p : proc) :
  malloc_ok e = true ->
  0 < open_rdwr e ->
  is_open (open_rdwr e) p = false ->
  fstat_size_ok e = true ->
  mmap_ok e = true ->
  munmap_ok e = true ->
  brk e <= vm_addr_of e < MAP_FAILED ->
  0 < vm_addr_of e ->
  f_regular (disk p) = true ->
  META_SIZE <= f_size (disk p) / page e * page e ->
  (scm_open e false ;; scm_close e) p =
  Done tt
    (mkProc None (fds p) None
       (set_f_meta (disk p)
          (store_metadata
             (snd (load_metadata
                     (mkScm (open_rdwr e) (vm_addr_of e) 0
                            (f_size (disk p) / page e * page e))
                     (f_meta (disk p))))
             (f_meta (disk p))))).
Proof.
  intros Hmalloc Hfd Hfresh Hfstat Hmmap Hmunmap Hbrk Hvm Hreg Hcap.
  rewrite (bind_step _ _ _ _ _
             (scm_open_reopen_run e p Hmalloc ltac:(lia) Hfstat Hmmap Hbrk
                                  Hreg Hcap)).
  erewrite scm_close_state;
    [| reflexivity | reflexivity | reflexivity | exact Hcap].
  assert (H0 : (vm_addr_of e =? 0) = false) by (apply Z.eqb_neq; lia).
  assert (H1 : (vm_addr_of e =? MAP_FAILED) = false) by (apply Z.eqb_neq; lia).
  rewrite H0, H1, Hmunmap. cbn [negb andb].
  assert (Hfdh : forall s m, fd (snd (load_metadata s m)) = fd s).
  { intros s m. unfold load_metadata.
    destruct (negb (signature m =? SCM_SIGNATURE)); auto.
    destruct (negb (checksum m =? calculate_checksum m)); auto. }
  cbn [fd set_mem fds disk]. rewrite Hfdh. cbn [fd].
  assert (Hnz : (open_rdwr e =? 0) = false) by (apply Z.eqb_neq; lia).
  rewrite Hnz. cbn [filter]. rewrite Z.eqb_refl. cbn [negb].
  rewrite filter_fresh by exact Hfresh.
  reflexivity.
Qed.

(** X16: on a store whose header passes the check, a reopen followed
    at once by a close is neutral: the descriptor table is as before,
    nothing stays mapped or allocated, and header, data bytes and
    size of the file are unchanged. *)
Theorem reopen_close_is_neutral (e : env) (p : proc) :
  malloc_ok e = true ->
  0 < open_rdwr e ->
  is_open (open_rdwr e) p = false ->
  fstat_size_ok e = true ->
  mmap_ok e = true ->
  munmap_ok e = true ->
  brk e <= vm_addr_of e < MAP_FAILED ->
  0 < vm_addr_of e ->
  f_regular (disk p) = true ->
  META_SIZE <= f_size (disk p) / page e * page e ->
  header_ok (f_meta (disk p)) ->
  exists q,
    (scm_open e false ;; scm_close e) p = Done tt q /\
    cell q = None /\ mapping q = None /\ fds q = fds p /\
    f_meta (disk q) = f_meta (disk p) /\
    f_data (disk q) = f_data (disk p) /\
    f_size (disk q) = f_size (disk p).
Proof.
  intros Hmalloc Hfd Hfresh Hfstat Hmmap Hmunmap Hbrk Hvm Hreg Hcap Hok.
  rewrite (reopen_close_run e p Hmalloc Hfd Hfresh Hfstat Hmmap Hmunmap Hbrk
                            Hvm Hreg Hcap).
  eexists. split; [reflexivity |]. cbn. repeat split; auto.
  rewrite load_metadata_ok by exact Hok. rewrite store_metadata_fields.
  destruct Hok as [Hsig Hsum]. cbn.
  destruct (f_meta (disk p)) as [sz sg ck]. cbn in *. now subst.
Qed.

Lemma reopen_close_is_neutral_witness :
  malloc_ok env0 = true /\
  0 < open_rdwr env0 /\
  is_open (open_rdwr env0) (proc_of stored_file) = false /\
  fstat_size_ok env0 = true /\
  mmap_ok env0 = true /\
  munmap_ok env0 = true /\
  brk env0 <= vm_addr_of env0 < MAP_FAILED /\
  0 < vm_addr_of env0 /\
  f_regular (disk (proc_of stored_file)) = true /\
  META_SIZE <= f_size (disk (proc_of stored_file)) / page env0 * page env0 /\
  header_ok (f_meta (disk (proc_of stored_file))) /\
  exists q,
    (scm_open env0 false ;; scm_close env0) (proc_of stored_file)
    = Done tt q /\
    cell q = None /\ mapping q = None /\
    fds q = fds (proc_of stored_file) /\
    f_meta (disk q) = f_meta (disk (proc_of stored_file)) /\
    f_data (disk q) = f_data (disk (proc_of stored_file)) /\
    f_size (disk q) = f_size (disk (proc_of stored_file)).
Proof.
  assert (Hbrk : brk env0 <= vm_addr_of env0 < MAP_FAILED)
    by (split; [discriminate | reflexivity]).
  assert (Hcap : META_SIZE <= f_size (disk (proc_of stored_file))
                              / page env0 * page env0) by discriminate.
  assert (Hok : header_ok (f_meta (disk (proc_of stored_file))))
    by (split; reflexivity).
  repeat (split; [first [reflexivity | assumption] |]).
  apply (reopen_close_is_neutral env0 (proc_of stored_file));
    first [reflexivity | assumption].
Defined.

(** X17: on a file whose header fails the check, a reopen followed by
    a close does write to the file: the size word becomes 0 and the
    checksum word a copy of the signature word, while the signature
    word and the bytes after the header stay. *)
Theorem reopen_close_rewrites_foreign_header (e : env) (p : proc) :
  malloc_ok e = true ->
  0 < open_rdwr e ->
  is_open (open_rdwr e) p = false ->
  fstat_size_ok e = true ->
  mmap_ok e = true ->
  munmap_ok e = true ->
  brk e <= vm_addr_of e < MAP_FAILED ->
  0 < vm_addr_of e ->
  f_regular (disk p) = true ->
  META_SIZE <= f_size (disk p) / page e * page e ->
  ~ header_ok (f_meta (disk p)) ->
  exists q,
    (scm_open e false ;; scm_close e) p = Done tt q /\
    f_meta (disk q) =
      mkMeta 0 (signature (f_meta (disk p))) (signature (f_meta (disk p))) /\
    (forall o, META_SIZE <= o -> f_data (disk q) o = f_data (disk p) o) /\
    fds q = fds p.
Proof.
  intros Hmalloc Hfd Hfresh Hfstat Hmmap Hmunmap Hbrk Hvm Hreg Hcap Hbad.
  rewrite (reopen_close_run e p Hmalloc Hfd Hfresh Hfstat Hmmap Hmunmap Hbrk
                            Hvm Hreg Hcap).
  eexists. split; [reflexivity |]. cbn. repeat split; auto.
  rewrite load_metadata_bad by exact Hbad. rewrite store_metadata_fields.
  reflexivity.
Qed.

Lemma reopen_close_rewrites_foreign_header_witness :
  malloc_ok env0 = true /\
  0 < open_rdwr env0 /\
  is_open (open_rdwr env0) (proc_of foreign_file) = false /\
  fstat_size_ok env0 = true /\
  mmap_ok env0 = true /\
  munmap_ok env0 = true /\
  brk env0 <= vm_addr_of env0 < MAP_FAILED /\
  0 < vm_addr_of env0 /\
  f_regular (disk (proc_of foreign_file)) = true /\
  META_SIZE <= f_size (disk (proc_of foreign_file)) / page env0 * page env0 /\
  ~ header_ok (f_meta (disk (proc_of foreign_file))) /\
  exists q,
    (scm_open env0 false ;; scm_close env0) (proc_of foreign_file)
    = Done tt q /\
    f_meta (disk q) =
      mkMeta 0 (signature (f_meta (disk (proc_of foreign_file))))
             (signature (f_meta (disk (proc_of foreign_file)))) /\
    (forall o, META_SIZE <= o ->
               f_data (disk q) o = f_data (disk (proc_of foreign_file)) o) /\
    fds q = fds (proc_of foreign_file).
Proof.
  assert (Hbrk : brk env0 <= vm_addr_of env0 < MAP_FAILED)
    by (split; [discriminate | reflexivity]).
  assert (Hcap : META_SIZE <= f_size (disk (proc_of foreign_file))
                              / page env0 * page env0) by discriminate.
  assert (Hbad : ~ header_ok (f_meta (disk (proc_of foreign_file))))
    by (intros [H _]; discriminate H).
  repeat (split; [first [reflexivity | assumption] |]).
  apply (reopen_close_rewrites_foreign_header env0 (proc_of foreign_file));
    first [reflexivity | assumption].
Defined.

(** X18: what is allocated survives a close and a reopen.  On an open
    store whose header carries the expected signature, [scm_close]
    followed by a reopen that every call grants yields a handle whose
    [utilized] is the one the closed handle had; the header then
    records that value, and the bytes after the header are as they
    were. *)
Theorem close_reopen_restores_utilized (e : env) (p : proc) (h : scm)
        (a len : Z) :
  cell p = Some h ->
  mapping p = Some (a, len) ->
  mem h = a + META_SIZE ->
  META_SIZE <= len ->
  signature (f_meta (disk p)) = SCM_SIGNATURE ->
  malloc_ok e = true ->
  0 <= open_rdwr e ->
  fstat_size_ok e = true ->
  mmap_ok e = true ->
  brk e <= vm_addr_of e < MAP_FAILED ->
  f_regular (disk p) = true ->
  META_SIZE <= f_size (disk p) / page e * page e ->
  exists q,
    (scm_close e ;; scm_open e false) p =
    Done (Some (mkScm (open_rdwr e) (vm_addr_of e + META_SIZE) (utilized h)
                      (f_size (disk p) / page e * page e))) q /\
    f_meta (disk q) =
      mkMeta (utilized h) SCM_SIGNATURE (Z.lxor (utilized h) SCM_SIGNATURE) /\
    (forall o, META_SIZE <= o -> f_data (disk q) o = f_data (disk p) o).
Proof.
  intros Hcell Hmap Hmem Hlen Hsig Hmalloc Hfd Hfstat Hmmap Hbrk Hreg Hcap.
  rewrite (bind_step _ _ _ _ _ (scm_close_state e p h a len Hcell Hmap Hmem
                                                Hlen)).
  rewrite scm_open_reopen_run by assumption.
  cbn [disk set_f_meta f_meta f_size f_regular f_data].
  rewrite load_metadata_ok
    by (rewrite store_metadata_fields; split; cbn; congruence).
  rewrite store_metadata_fields, Hsig.
  eexists. split; [reflexivity |]. cbn. auto.
Qed.

Lemma close_reopen_restores_utilized_witness :
  cell (open_store 6) = Some (handle_at 6) /\
  mapping (open_store 6) = Some (vm_base, 8192) /\
  mem (handle_at 6) = vm_base + META_SIZE /\
  META_SIZE <= 8192 /\
  signature (f_meta (disk (open_store 6))) = SCM_SIGNATURE /\
  malloc_ok env0 = true /\
  0 <= open_rdwr env0 /\
  fstat_size_ok env0 = true /\
  mmap_ok env0 = true /\
  brk env0 <= vm_addr_of env0 < MAP_FAILED /\
  f_regular (disk (open_store 6)) = true /\
  META_SIZE <= f_size (disk (open_store 6)) / page env0 * page env0 /\
  exists q,
    (scm_close env0 ;; scm_open env0 false) (open_store 6) =
    Done (Some (mkScm (open_rdwr env0) (vm_addr_of env0 + META_SIZE)
                      (utilized (handle_at 6))
                      (f_size (disk (open_store 6)) / page env0
                       * page env0))) q /\
    f_meta (disk q) =
      mkMeta (utilized (handle_at 6)) SCM_SIGNATURE
             (Z.lxor (utilized (handle_at 6)) SCM_SIGNATURE) /\
    (forall o, META_SIZE <= o ->
               f_data (disk q) o = f_data (disk (open_store 6)) o).
Proof.
  assert (Hbrk : brk env0 <= vm_addr_of env0 < MAP_FAILED)
    by (split; [discriminate | reflexivity]).
  assert (Hcap : META_SIZE <= f_size (disk (open_store 6))
                              / page env0 * page env0) by discriminate.
  assert (Hlen : META_SIZE <= 8192) by discriminate.
  assert (Hfd : 0 <= open_rdwr env0) by discriminate.
  repeat (split; [first [reflexivity | assumption] |]).
  apply (close_reopen_restores_utilized env0 (open_store 6) (handle_at 6)
           vm_base 8192); first [reflexivity | assumption].
Defined.

(** ** [scm_strdup] at the end of the mapping *)

(** A copy that runs past the end of the mapping has no defined
    behaviour. *)
Lemma store_bytes_overrun (a len : Z) (bs : list ascii) :
  forall (addr : Z) (p : proc),
    mapping p = Some (a, len) ->
    a + META_SIZE <= addr ->
    bs <> [] ->
    a + len < addr + Z.of_nat (List.length bs) ->
    store_bytes addr bs p = Undefined.
Proof.
  induction bs as [| b bs IH]; intros addr p Hmap Hlo Hne Hover;
    [congruence |].
  cbn [store_bytes List.length] in *.
  destruct (Z.lt_ge_cases addr (a + len)) as [Hin | Hout].
  - rewrite (bind_step _ _ _ _ _ (store_byte_run a len addr b p Hmap
                                    ltac:(lia))).
    apply IH; try exact Hmap; try lia.
    destruct bs; [cbn in Hover; lia | discriminate].
  - unfold bind, store_byte, data_at. rewrite Hmap.
    destruct (addr <? a + len) eqn:Hlt; [lia |].
    now rewrite andb_false_r.
Qed.

(** A copy that starts below the usable part of the mapping has no
    defined behaviour either. *)
Lemma store_bytes_below (a len : Z) (bs : list ascii) (addr : Z) (p : proc) :
  mapping p = Some (a, len) ->
  addr < a + META_SIZE ->
  bs <> [] ->
  store_bytes addr bs p = Undefined.
Proof.
  intros Hmap Hlow Hne. destruct bs as [| b bs]; [congruence |].
  cbn [store_bytes]. unfold bind, store_byte, data_at. rewrite Hmap.
  destruct (a + META_SIZE <=? addr) eqn:Hle; [lia | reflexivity].
Qed.

(** X19: [scm_open] maps [capacity] bytes but lets the allocator hand
    out [capacity] bytes from [META_SIZE] bytes into the mapping.  So,
    on a mapping inside the address space and for a string that
    [scm_malloc] accepts, [scm_strdup] returns (the address
    [mem + utilized], with the cursor advanced by [strlen s + 1] and
    the characters and the NUL in place) exactly when the copy ends at
    most [capacity - META_SIZE] bytes into the region; a copy that
    ends in the last [META_SIZE] bytes of the region runs past the
    mapping and has no defined behaviour. *)
Theorem scm_strdup_defined_iff_mapped (s : string) (p : proc) (h : scm)
        (a : Z) :
  cell p = Some h ->
  mapping p = Some (a, capacity h) ->
  0 <= a ->
  a + capacity h <= 2 ^ SIZE_BITS ->
  mem h = a + META_SIZE ->
  0 <= utilized h ->
  capacity h < 2 ^ SIZE_BITS ->
  utilized h + strlen s + 1 <= capacity h ->
  (utilized h + strlen s + 1 <= capacity h - META_SIZE ->
   exists q,
     scm_strdup s p = Done (Some (mem h + utilized h)) q /\
     cell q = Some (set_utilized h (utilized h + strlen s + 1)) /\
     forall i, (i <= String.length s)%nat ->
               load_byte (mem h + utilized h + Z.of_nat i) q =
               Some (nth i (list_ascii_of_string s ++ [zero]) zero)) /\
  (capacity h - META_SIZE < utilized h + strlen s + 1 ->
   scm_strdup s p = Undefined).
Proof.
  intros Hcell Hmap Ha Htop Hmem Hu Hcap Hfit.
  assert (Hlen : 0 <= strlen s) by (unfold strlen; lia).
  assert (Hw1 : wrap (strlen s + 1) = strlen s + 1)
    by (apply wrap_small; lia).
  assert (Hw2 : wrap (utilized h + (strlen s + 1)) = utilized h + strlen s + 1)
    by (rewrite wrap_small; lia).
  assert (Hne : list_ascii_of_string s ++ [zero] <> [])
    by (destruct (list_ascii_of_string s); discriminate).
  split.
  - intros Hin.
    destruct (scm_strdup_copies s p h a (capacity h) Hcell Hmap Ha Htop)
      as (q & Hrun & Hq & Hread); try lia.
    { rewrite Hw1, Hw2. lia. }
    exists q. rewrite Hw1, Hw2 in Hq. auto.
  - intros Hout. unfold scm_strdup.
    rewrite (bind_step _ _ _ _ _ (run_scm_malloc_run _ p h Hcell)).
    unfold scm_malloc. rewrite Hw1, Hw2.
    destruct (utilized h + strlen s + 1 <=? capacity h) eqn:Hle; [| lia].
    cbn [fst snd]. unfold bind.
    destruct (pointer (mem h + utilized h)) as [addr |] eqn:Hptr;
      [| reflexivity].
    apply pointer_Some in Hptr as [-> _]. cbn [strcpy].
    destruct (Z.lt_ge_cases (mem h + utilized h) (2 ^ SIZE_BITS))
      as [Hin | Hwrap].
    + rewrite wrap_small by (unfold META_SIZE in *; lia).
      rewrite (store_bytes_overrun a (capacity h)); try reflexivity;
        try exact Hmap; try exact Hne; try lia.
      rewrite length_app, list_ascii_length. unfold strlen in *. cbn. lia.
    + assert (Hw : wrap (mem h + utilized h)
                   = mem h + utilized h - 2 ^ SIZE_BITS).
      { unfold wrap, SIZE_BITS, META_SIZE in *.
        Z.div_mod_to_equations. lia. }
      rewrite (store_bytes_below a (capacity h)); try reflexivity;
        try exact Hmap; try exact Hne.
      rewrite Hw. unfold META_SIZE in *. lia.
Qed.

Lemma scm_strdup_defined_iff_mapped_witness :
  cell (open_store 8180) = Some (handle_at 8180) /\
  mapping (open_store 8180) = Some (vm_base, capacity (handle_at 8180)) /\
  0 <= vm_base /\
  vm_base + capacity (handle_at 8180) <= 2 ^ SIZE_BITS /\
  mem (handle_at 8180) = vm_base + META_SIZE /\
  0 <= utilized (handle_at 8180) /\
  capacity (handle_at 8180) < 2 ^ SIZE_BITS /\
  utilized (handle_at 8180) + strlen "hello" + 1 <= capacity (handle_at 8180)
  /\
  (utilized (handle_at 8180) + strlen "hello" + 1
   <= capacity (handle_at 8180) - META_SIZE ->
   exists q,
     scm_strdup "hello" (open_store 8180) =
     Done (Some (mem (handle_at 8180) + utilized (handle_at 8180))) q /\
     cell q = Some (set_utilized (handle_at 8180)
                      (utilized (handle_at 8180) + strlen "hello" + 1)) /\
     forall i, (i <= String.length "hello")%nat ->
               load_byte (mem (handle_at 8180) + utilized (handle_at 8180)
                          + Z.of_nat i) q =
               Some (nth i (list_ascii_of_string "hello" ++ [zero]) zero)) /\
  (capacity (handle_at 8180) - META_SIZE
   < utilized (handle_at 8180) + strlen "hello" + 1 ->
   scm_strdup "hello" (open_store 8180) = Undefined).
Proof.
  assert (Ha : 0 <= vm_base) by discriminate.
  assert (Htop : vm_base + capacity (handle_at 8180) <= 2 ^ SIZE_BITS)
    by discriminate.
  assert (Hu : 0 <= utilized (handle_at 8180)) by discriminate.
  assert (Hfit : utilized (handle_at 8180) + strlen "hello" + 1
                 <= capacity (handle_at 8180)) by discriminate.
  repeat (split; [first [reflexivity | assumption] |]).
  apply (scm_strdup_defined_iff_mapped "hello" (open_store 8180)
           (handle_at 8180) vm_base); first [reflexivity | assumption].
Defined.

(** ** What every open has in common *)

(** X20: the usable base is a fixed address.  Any two opens that
    return a handle, whatever the files, the modes and the answers of
    the system, return the same [mem] as long as the page size is the
    same: the page-aligned [VM_ADDR] plus the header size. *)
Theorem scm_open_fixed_address (e1 e2 : env) (t1 t2 : bool)
        (p1 p2 q1 q2 : proc) (h1 h2 : scm) :
  page e1 = page e2 ->
  0 < page e1 ->
  scm_open e1 t1 p1 = Done (Some h1) q1 ->
  scm_open e2 t2 p2 = Done (Some h2) q2 ->
  scm_mbase h1 = scm_mbase h2 /\
  scm_mbase h1 = VM_ADDR / page e1 * page e1 + META_SIZE /\
  (scm_mbase h1 - META_SIZE) mod page e1 = 0 /\
  VM_ADDR - page e1 < scm_mbase h1 - META_SIZE <= VM_ADDR.
Proof.
  intros Hpage Hpos H1 H2.
  apply scm_open_Some in H1 as (_ & _ & _ & Hm1 & _).
  apply scm_open_Some in H2 as (_ & _ & _ & Hm2 & _).
  unfold scm_mbase, vm_addr_of in *. rewrite Hm1, Hm2, Hpage.
  repeat split; auto.
  - rewrite <- Hpage.
    replace (VM_ADDR / page e1 * page e1 + META_SIZE - META_SIZE)
      with (VM_ADDR / page e1 * page e1) by lia.
    apply Z.mod_mul. lia.
  - rewrite <- Hpage.
    pose proof (Z.mul_div_le VM_ADDR (page e1) Hpos).
    pose proof (Z.mul_succ_div_gt VM_ADDR (page e1) Hpos). lia.
  - rewrite <- Hpage. pose proof (Z.mul_div_le VM_ADDR (page e1) Hpos). lia.
Qed.

Lemma scm_open_fixed_address_witness :
  exists (h1 h2 : scm) (q1 q2 : proc),
    page env0 = page env_no_wronly /\
    0 < page env0 /\
    scm_open env0 true (proc_of foreign_file) = Done (Some h1) q1 /\
    scm_open env_no_wronly false (proc_of oversized_file) = Done (Some h2) q2
    /\
    scm_mbase h1 = scm_mbase h2 /\
    scm_mbase h1 = VM_ADDR / page env0 * page env0 + META_SIZE /\
    (scm_mbase h1 - META_SIZE) mod page env0 = 0 /\
    VM_ADDR - page env0 < scm_mbase h1 - META_SIZE <= VM_ADDR.
Proof.
  eexists. eexists. eexists. eexists.
  split; [reflexivity |]. split; [reflexivity |].
  split; [vm_compute; reflexivity |]. split; [vm_compute; reflexivity |].
  eapply (scm_open_fixed_address env0 env_no_wronly true false
            (proc_of foreign_file) (proc_of oversized_file)).
  - reflexivity.
  - reflexivity.
  - vm_compute. reflexivity.
  - vm_compute. reflexivity.
Defined.

(** X21: [scm_open] never returns NULL with the handle still
    allocated: on every path that returns NULL after [malloc]
    succeeded, the struct has been released. *)
Theorem scm_open_null_releases_handle (e : env) (truncate : bool)
        (p q : proc) :
  malloc_ok e = true ->
  scm_open e truncate p = Done None q ->
  cell q = None.
Proof.
  intros Hmalloc H. unfold scm_open, FREE in H.
  peel H ok p1 Hm. unfold sys_malloc in Hm. rewrite Hmalloc in Hm.
  inversion Hm; subst ok p1; clear Hm. cbn [negb] in H.
  peel H u p1 Hz. peel H r p2 Ho. peel H u1 p3 Hp. peel H s p4 Hg.
  assert (Hfree : forall p5 q5,
             (sys_free ;; ret (@None scm)) p5 = Done None q5 ->
             cell q5 = None).
  { intros p5 q5 Hf. peel Hf u5 p6 Hfr. apply sys_free_Done in Hfr.
    apply ret_Done in Hf as [_ ->]. now subst p6. }
  destruct (fd s <? 0); [now apply Hfree in H |].
  peel H fs p5 Hfs.
  destruct (_ <? brk e); [now apply Hfree in H |].
  peel H failed p6 Ht. destruct failed.
  { peel H s6 p7 Hg6. peel H c p8 Hc. now apply Hfree in H. }
  peel H s6 p7 Hg6. peel H r7 p8 Hmm. peel H u8 p9 Hp8. peel H s9 p10 Hg9.
  destruct (mem s9 =? MAP_FAILED); [now apply Hfree in H |].
  peel H u10 p11 Hmeta. peel H u11 p12 Hp11. peel H s12 p13 Hg12.
  apply ret_Done in H as [H _]. discriminate.
Qed.

Lemma scm_open_null_releases_handle_witness :
  exists q,
    malloc_ok env_no_mmap = true /\
    scm_open env_no_mmap true (proc_of stored_file) = Done None q /\
    cell q = None.
Proof.
  eexists. split; [reflexivity |]. split; [vm_compute; reflexivity |].
  eapply (scm_open_null_releases_handle env_no_mmap true
            (proc_of stored_file)).
  - reflexivity.
  - vm_compute. reflexivity.
Defined.

(** X22: what a returned handle tells about the file.  Whenever
    [scm_open] returns a handle, the file is regular, the capacity is
    its size rounded down to whole pages (a non-zero multiple of the
    page size, at most the size), the handle carries the descriptor
    that [open] returned, the mapping starts one header before [mem]
    and is [capacity] bytes long, and in truncate mode nothing is
    allocated yet. *)
Theorem scm_open_handle_facts (e : env) (truncate : bool) (p q : proc)
        (h : scm) :
  0 < page e ->
  0 <= f_size (disk p) ->
  scm_open e truncate p = Done (Some h) q ->
  f_regular (disk p) = true /\
  scm_capacity h = f_size (disk p) / page e * page e /\
  0 < scm_capacity h <= f_size (disk p) /\
  scm_capacity h mod page e = 0 /\
  fd h = open_rdwr e /\
  mapping q = Some (scm_mbase h - META_SIZE, scm_capacity h) /\
  (truncate = true -> scm_utilized h = 0).
Proof.
  intros Hpage Hsz H.
  apply scm_open_Some in H
    as (_ & Hreg & Hfd & Hmem & Hcap & Hmap & Hfresh & _ & Hnz).
  unfold scm_capacity, scm_mbase, scm_utilized.
  pose proof (aligned_nonneg _ _ Hsz Hpage) as Hnn.
  pose proof (Z.mul_div_le (f_size (disk p)) (page e) Hpage) as Hle.
  repeat split; auto; try lia.
  - rewrite Hcap. apply Z.mod_mul. lia.
  - rewrite Hmap, Hmem. do 2 f_equal. lia.
  - intros Ht. now apply Hfresh.
Qed.

Lemma scm_open_handle_facts_witness :
  exists (h : scm) (q : proc),
    0 < page env0 /\
    0 <= f_size (disk (proc_of stored_file)) /\
    scm_open env0 false (proc_of stored_file) = Done (Some h) q /\
    f_regular (disk (proc_of stored_file)) = true /\
    scm_capacity h = f_size (disk (proc_of stored_file)) / page env0
                     * page env0 /\
    0 < scm_capacity h <= f_size (disk (proc_of stored_file)) /\
    scm_capacity h mod page env0 = 0 /\
    fd h = open_rdwr env0 /\
    mapping q = Some (scm_mbase h - META_SIZE, scm_capacity h) /\
    (false = true -> scm_utilized h = 0).
Proof.
  eexists. eexists.
  split; [reflexivity |]. split; [discriminate |].
  split; [vm_compute; reflexivity |].
  eapply (scm_open_handle_facts env0 false (proc_of stored_file)).
  - reflexivity.
  - discriminate.
  - vm_compute. reflexivity.
Defined.
